(** * RoomEase trust-score engine

    A shallow embedding of the trust module of RoomEase (the score policy,
    the trust ledger, the action handlers and the permission gate) together
    with the Firestore helpers of the firebase module it calls, and the
    properties of the specification that hold or fail on it.

    The score policy and the permission gate are embedded on integer
    scores ([Z]), and the gate once more on every number (module [num]).
    What is stored and what the manual reset receives is a [Num]: an
    integer, [NaN] or an infinity. Array lengths are [nat]. The formatting,
    validation and processing functions of the payments module follow. *)

From stdpp Require Import gmap strings list.
From Stdlib Require Import ZArith QArith.

Local Open Scope Z_scope.

(** ** Types of [types/index.ts] used by the trust engine *)

Inductive TrustActionType :=
  | chore_completed
  | chore_confirmed
  | chore_disputed_valid
  | chore_disputed_invalid
  | false_completion
  | bill_paid_on_time
  | bill_paid_late
  | helpful_action
  | manual_adjustment.

Inductive ChoreStatus :=
  | pending
  | in_progress
  | completed
  | confirmed
  | disputed
  | overdue
  | skipped.

(** The fields of [Chore] that the trust engine reads. Dates are
    milliseconds since the epoch. *)
Record Chore := {
  chore_id : string;
  chore_roomId : string;
  title : string;
  assignedTo : string;
  status : ChoreStatus;
  recurring : bool;
  dueDate : Z;
  completedAt : option Z
}.

(** A JavaScript number as the ledger meets it: an integer, [NaN] or an
    infinity. The policy deals in integer constants and the ledger combines
    numbers by addition, subtraction, [Math.min] and [Math.max] only; finite
    numbers that are not integers, whose arithmetic is floating-point, are
    left out. *)
Inductive Num :=
  | Int (z : Z)
  | NaN
  | Infinity
  | MinusInfinity.

Coercion Int : Z >-> Num.

(** [Omit<TrustAction, 'id'>]: the data of a document of the
    [trustActions] collection. [updatedAt] is only present on the documents
    written through [createDocument]. [relatedId] and [createdBy] are
    [None] for a key that is absent or that holds [undefined]; the ledger's
    callback always writes both keys, so there [None] is [undefined]. *)
Record TrustAction := {
  userId : string;
  roomId : string;
  action : TrustActionType;
  points : Num;
  reason : string;
  relatedId : option string;
  createdBy : option string;
  createdAt : Z;
  action_updatedAt : option Z
}.

(** The fields of a [users] document that the trust engine reads or writes.
    A document that has no [trustScore] field has [trustScore = None]. *)
Record User := {
  trustScore : option Num;
  updatedAt : Z
}.

(** The optional [context] argument of the policy. *)
Record TrustContext := {
  isRecurring : option bool;
  wasOnTime : option bool;
  consecutiveCount : option Z;
  disputeWasValid : option bool
}.

Inductive TrustLevel := critical | low | medium | high.

Inductive Capability :=
  | create_chore
  | dispute_chore
  | manage_bills
  | invite_members
  | delete_items.

Global Instance TrustActionType_eq_dec : EqDecision TrustActionType.
Proof. solve_decision. Defined.
Global Instance ChoreStatus_eq_dec : EqDecision ChoreStatus.
Proof. solve_decision. Defined.
Global Instance TrustLevel_eq_dec : EqDecision TrustLevel.
Proof. solve_decision. Defined.
Global Instance Num_eq_dec : EqDecision Num.
Proof. solve_decision. Defined.

(** ** JavaScript numbers *)

(** [a + b] and [a - b] *)
Definition jsAdd (a b : Num) : Num :=
  match a, b with
  | NaN, _ | _, NaN => NaN
  | Int x, Int y => Int (x + y)
  | Infinity, MinusInfinity | MinusInfinity, Infinity => NaN
  | Infinity, _ | _, Infinity => Infinity
  | MinusInfinity, _ | _, MinusInfinity => MinusInfinity
  end.

Definition jsNeg (a : Num) : Num :=
  match a with
  | Int x => Int (- x)
  | NaN => NaN
  | Infinity => MinusInfinity
  | MinusInfinity => Infinity
  end.

Definition jsSub (a b : Num) : Num := jsAdd a (jsNeg b).

(** [Math.min] and [Math.max] of two numbers: [NaN] when either is. *)
Module Math.
Definition min (a b : Num) : Num :=
  match a, b with
  | NaN, _ | _, NaN => NaN
  | MinusInfinity, _ | _, MinusInfinity => MinusInfinity
  | Infinity, x | x, Infinity => x
  | Int x, Int y => Int (Z.min x y)
  end.

Definition max (a b : Num) : Num :=
  match a, b with
  | NaN, _ | _, NaN => NaN
  | Infinity, _ | _, Infinity => Infinity
  | MinusInfinity, x | x, MinusInfinity => x
  | Int x, Int y => Int (Z.max x y)
  end.
End Math.

(** ** JavaScript truthiness *)

(** [x ? .. : ..] and [if (x)] on an optional boolean. *)
Definition truthy (x : option bool) : bool := default false x.

(** [x || d] on an optional number: [undefined], [0] and [NaN] are
    falsy. *)
Definition or_default (x : option Num) (d : Num) : Num :=
  match x with
  | Some (Int 0) | Some NaN | None => d
  | Some v => v
  end.

(** [if (e)] on an error message that is [null] or a string: the empty
    string is falsy. *)
Definition truthy_message (e : option string) : bool :=
  match e with
  | Some EmptyString => false
  | Some _ => true
  | None => false
  end.

(** ** Score policy *)

Module TRUST_CONSTANTS.
Definition INITIAL_SCORE : Z := 100.
Definition MIN_SCORE : Z := 0.
Definition MAX_SCORE : Z := 150.
Definition THRESHOLD_LOW : Z := 30.
Definition THRESHOLD_MEDIUM : Z := 70.
Definition THRESHOLD_HIGH : Z := 100.

Module POINTS.
Definition CHORE_COMPLETED : Z := 2.
Definition CHORE_CONFIRMED : Z := 1.
Definition CHORE_DISPUTED_VALID : Z := -5.
Definition CHORE_DISPUTED_INVALID : Z := -1.
Definition FALSE_COMPLETION : Z := -10.
Definition BILL_PAID_ON_TIME : Z := 3.
Definition BILL_PAID_LATE : Z := -2.
Definition HELPFUL_ACTION : Z := 5.
Definition WEEKLY_CONSISTENCY_BONUS : Z := 5.
Definition MONTHLY_RELIABILITY_BONUS : Z := 10.
End POINTS.
End TRUST_CONSTANTS.

Definition getTrustLevel (score : Z) : TrustLevel :=
  if score <? TRUST_CONSTANTS.THRESHOLD_LOW then critical
  else if score <? TRUST_CONSTANTS.THRESHOLD_MEDIUM then low
  else if score <? TRUST_CONSTANTS.THRESHOLD_HIGH then medium
  else high.

Definition canPerformAction (score : Z) (act : Capability) : bool :=
  let level := getTrustLevel score in
  match act with
  | create_chore => negb (bool_decide (level = critical))
  | dispute_chore => TRUST_CONSTANTS.THRESHOLD_LOW <=? score
  | manage_bills => TRUST_CONSTANTS.THRESHOLD_MEDIUM <=? score
  | invite_members => TRUST_CONSTANTS.THRESHOLD_HIGH <=? score
  | delete_items => TRUST_CONSTANTS.THRESHOLD_MEDIUM <=? score
  end.

Definition calculateTrustChange
    (actionType : TrustActionType) (context : option TrustContext) : Z :=
  match actionType with
  | chore_completed =>
      let basePoints := TRUST_CONSTANTS.POINTS.CHORE_COMPLETED in
      let basePoints :=
        if truthy (context ≫= isRecurring) then basePoints + 1
        else basePoints in
      match context ≫= consecutiveCount with
      | Some count =>
          if negb (count =? 0) && (5 <=? count)
          then basePoints + Z.min (count - 4) 3
          else basePoints
      | None => basePoints
      end
  | chore_confirmed => TRUST_CONSTANTS.POINTS.CHORE_CONFIRMED
  | chore_disputed_valid => TRUST_CONSTANTS.POINTS.CHORE_DISPUTED_VALID
  | chore_disputed_invalid => TRUST_CONSTANTS.POINTS.CHORE_DISPUTED_INVALID
  | false_completion => TRUST_CONSTANTS.POINTS.FALSE_COMPLETION
  | bill_paid_on_time =>
      if truthy (context ≫= wasOnTime)
      then TRUST_CONSTANTS.POINTS.BILL_PAID_ON_TIME
      else TRUST_CONSTANTS.POINTS.BILL_PAID_LATE
  | bill_paid_late => TRUST_CONSTANTS.POINTS.BILL_PAID_LATE
  | helpful_action => TRUST_CONSTANTS.POINTS.HELPFUL_ACTION
  | manual_adjustment => 0
  end.

(** ** Permission gate *)

Record TrustRestrictions := {
  canCreateChores : bool;
  canDisputeChores : bool;
  canManageBills : bool;
  canInviteMembers : bool;
  canDeleteItems : bool;
  maxChoresPerWeek : option Z;
  requiresConfirmation : bool;
  message : option string
}.

Definition getTrustRestrictions (score : Z) : TrustRestrictions :=
  let level := getTrustLevel score in
  let restrictions := {|
    canCreateChores := canPerformAction score create_chore;
    canDisputeChores := canPerformAction score dispute_chore;
    canManageBills := canPerformAction score manage_bills;
    canInviteMembers := canPerformAction score invite_members;
    canDeleteItems := canPerformAction score delete_items;
    maxChoresPerWeek := None;
    requiresConfirmation :=
      bool_decide (level = critical) || bool_decide (level = low);
    message := None
  |} in
  let set (cap : option Z) (msg : string) : TrustRestrictions := {|
    canCreateChores := canCreateChores restrictions;
    canDisputeChores := canDisputeChores restrictions;
    canManageBills := canManageBills restrictions;
    canInviteMembers := canInviteMembers restrictions;
    canDeleteItems := canDeleteItems restrictions;
    maxChoresPerWeek := cap;
    requiresConfirmation := requiresConfirmation restrictions;
    message := Some msg
  |} in
  match level with
  | critical =>
      set (Some 2)
        "Your trust score is critically low. Some features are restricted."%string
  | low =>
      set (Some 5)
        "Your trust score is low. Complete chores reliably to improve it."%string
  | medium => set None "Good standing! Keep up the reliable work."%string
  | high =>
      set None "Excellent trustworthiness! You have full privileges."%string
  end.

(** ** The firebase module *)

Module firebase.

(** The state of the backend as the trust engine observes it: the three
    collections it touches, the wall clock read by [new Date()] and
    [serverTimestamp()], and whether the backend is reachable
    ([outage = Some m]: every SDK call rejects with message [m]).

    [trustActions] lists the audit documents in commit order; their
    generated ids are not modelled. [chores] lists the chores documents in
    the order in which a query returns them. *)
Record Db := {
  users : gmap string User;
  trustActions : list TrustAction;
  chores : list Chore;
  clock : Z;
  outage : option string
}.

(** The outcome of awaiting a promise: its value, or the [message] of the
    error it rejects with. *)
Inductive Outcome (A : Type) :=
  | Resolved (a : A)
  | Rejected (msg : string).
Arguments Resolved {A} a.
Arguments Rejected {A} msg.

(** An [async] computation over the backend. *)
Definition Async (A : Type) : Type := Db → Db * Outcome A.

Global Instance Async_ret : MRet Async := λ A a db, (db, Resolved a).

Global Instance Async_bind : MBind Async := λ A B f m db,
  match m db with
  | (db', Resolved a) => f a db'
  | (db', Rejected e) => (db', Rejected e)
  end.

Definition throw {A} (msg : string) : Async A := λ db, (db, Rejected msg).

(** [try { body } catch (error) { handler error.message }] *)
Definition try_catch {A} (body : Async A) (handler : string → Async A)
    : Async A := λ db,
  match body db with
  | (db', Resolved a) => (db', Resolved a)
  | (db', Rejected e) => handler e db'
  end.

(** [new Date()] and [serverTimestamp()] *)
Definition Date_new : Async Z := λ db, (db, Resolved (clock db)).

(** *** The Firestore SDK, as far as the engine uses it *)

Definition with_users (f : gmap string User → gmap string User) (db : Db)
    : Db :=
  {| users := f (users db); trustActions := trustActions db;
     chores := chores db; clock := clock db; outage := outage db |}.

Definition with_trustActions (f : list TrustAction → list TrustAction)
    (db : Db) : Db :=
  {| users := users db; trustActions := f (trustActions db);
     chores := chores db; clock := clock db; outage := outage db |}.

(** [(await transaction.get(doc(db, 'users', id))).data()] *)
Definition transaction_get (id : string) : Async (option User) := λ db,
  match outage db with
  | Some e => (db, Rejected e)
  | None => (db, Resolved (users db !! id))
  end.

Definition NOT_FOUND (id : string) : string :=
  "No document to update: users/" +:+ id.

(** [transaction.update(doc(db, 'users', id), {trustScore, updatedAt})]:
    the two fields are merged into the document; updating a document that
    does not exist fails the transaction. *)
Definition transaction_update (id : string) (score : Num) (at_ : Z)
    : Async unit := λ db,
  match users db !! id with
  | None => (db, Rejected (NOT_FOUND id))
  | Some _ =>
      (with_users
         (<[id := {| trustScore := Some score; updatedAt := at_ |}]>) db,
       Resolved ())
  end.

(** The message with which the SDK refuses data that holds [undefined]
    (the instance is created by [getFirestore(app)], without
    [ignoreUndefinedProperties]), shortened: the SDK's message also names
    the function called and the path of the document. *)
Definition UNDEFINED_VALUE (field : string) : string :=
  "Unsupported field value: undefined (found in field " +:+ field +:+ ")".

(** [transaction.set(doc(collection(db, 'trustActions')), data)] for the
    data that the ledger's callback builds, in which the keys [relatedId]
    and [createdBy] are always present: a document with a fresh id, unless
    one of the two holds [undefined]. *)
Definition transaction_set (data : TrustAction) : Async unit := λ db,
  match relatedId data, createdBy data with
  | None, _ => (db, Rejected (UNDEFINED_VALUE "relatedId"))
  | Some _, None => (db, Rejected (UNDEFINED_VALUE "createdBy"))
  | Some _, Some _ => (with_trustActions (λ l, l ++ [data]) db, Resolved ())
  end.

(** [runTransaction(db, updateFunction)]: [updateFunction] is run, and its
    writes are committed together when it resolves and dropped when it
    rejects; an error thrown by [updateFunction] that is not a Firestore
    error is not retried and rejects the transaction. *)
Definition runTransaction {A} (updateFunction : Async A) : Async A := λ db,
  match updateFunction db with
  | (db', Resolved a) =>
      match outage db with
      | Some e => (db, Rejected e)
      | None => (db', Resolved a)
      end
  | (_, Rejected e) => (db, Rejected e)
  end.

(** [updateDoc(doc(db, 'users', id), {trustScore, updatedAt})]: rejects
    when the document does not exist. *)
Definition updateDoc (id : string) (score : Num) (at_ : Z) : Async unit :=
  λ db,
  match outage db with
  | Some e => (db, Rejected e)
  | None =>
      match users db !! id with
      | None => (db, Rejected (NOT_FOUND id))
      | Some _ =>
          (with_users
             (<[id := {| trustScore := Some score; updatedAt := at_ |}]>) db,
           Resolved ())
      end
  end.

(** [addDoc(collection(db, 'trustActions'), data)] *)
Definition addDoc (data : TrustAction) : Async unit := λ db,
  match outage db with
  | Some e => (db, Rejected e)
  | None => (with_trustActions (λ l, l ++ [data]) db, Resolved ())
  end.

(** [getDocs(q)] for a query [q] over the [chores] collection whose
    [where] clauses hold of exactly the chores satisfying [conditions]. *)
Definition getDocs (conditions : Chore → bool) : Async (list Chore) :=
  λ db,
  match outage db with
  | Some e => (db, Rejected e)
  | None => (db, Resolved (List.filter conditions (chores db)))
  end.

(** *** The helpers exported by the module *)

(** The [{ data, error }] shape of the helpers' results; [error: null] is
    [None]. *)
Record Result (A : Type) := { data : A; error : option string }.
Arguments data {A} _.
Arguments error {A} _.

(** [createDocument('trustActions', data)]; the helper stamps [createdAt]
    and [updatedAt]. The [id] of its result is not modelled. *)
Definition createDocument
    (uid rid : string) (act : TrustActionType) (pts : Num) (rsn : string)
    (by_ : option string) : Async (Result unit) :=
  try_catch
    (now ← Date_new;
     _ ← addDoc {| userId := uid; roomId := rid; action := act;
                   points := pts; reason := rsn; relatedId := None;
                   createdBy := by_; createdAt := now;
                   action_updatedAt := Some now |};
     mret {| data := (); error := None |})
    (λ msg, mret {| data := (); error := Some msg |}).

(** [updateDocument('users', docId, { trustScore })] *)
Definition updateDocument (docId : string) (score : Num)
    : Async (Result unit) :=
  try_catch
    (now ← Date_new;
     _ ← updateDoc docId score now;
     mret {| data := (); error := None |})
    (λ msg, mret {| data := (); error := Some msg |}).

(** [getDocuments('chores', conditions, ...)]; the ordering arguments are
    left out, the engine only counts and groups the documents. *)
Definition getDocuments (conditions : Chore → bool)
    : Async (Result (list Chore)) :=
  try_catch
    (documents ← getDocs conditions;
     mret {| data := documents; error := None |})
    (λ msg, mret {| data := []; error := Some msg |}).

(** [runFirestoreTransaction(callback)]; [data: null] is [None]. *)
Definition runFirestoreTransaction {A} (callback : Async A)
    : Async (Result (option A)) :=
  try_catch
    (result ← runTransaction callback;
     mret {| data := Some result; error := None |})
    (λ msg, mret {| data := None; error := Some msg |}).

End firebase.

Import firebase.

(** ** Trust ledger *)

(** The result objects of the ledger and of the handlers:
    [{ success, newScore?, bonusesApplied?, error? }]. A field that is
    absent, [undefined] or [null] is [None]. *)
Record TrustResult := {
  success : bool;
  newScore : option Num;
  bonusesApplied : option nat;
  error : option string
}.

(** The identifiers that the trust module binds at its top level: the
    names of its two import lines (the five types, and [createDocument],
    [updateDocument], [getDocuments] and [runFirestoreTransaction] of the
    firebase module) and its own declarations. *)
Definition bound : list string :=
  [ "TrustAction"; "TrustActionType"; "User"; "Chore"; "ChoreStatus";
    "createDocument"; "updateDocument"; "getDocuments";
    "runFirestoreTransaction";
    "TRUST_CONSTANTS"; "getTrustLevel"; "getTrustColor";
    "getTrustDescription"; "canPerformAction"; "calculateTrustChange";
    "adjustTrustScore"; "getTrustHistory"; "handleChoreCompletion";
    "handleChoreDispute"; "calculateWeeklyTrustBonus";
    "getTrustRestrictions"; "resetTrustScore" ]%string.

(** The message of the [ReferenceError] for an identifier that is bound
    nowhere, in V8's wording. *)
Definition NOT_DEFINED (identifier : string) : string :=
  identifier +:+ " is not defined".

(** Evaluating a free identifier of the module: one that is bound nowhere
    throws a [ReferenceError]. *)
Definition resolve (identifier : string) : Async unit :=
  if bool_decide (identifier ∈ bound) then mret ()
  else throw (NOT_DEFINED identifier).

(** The callback that [adjustTrustScore] hands to the transaction. Its body
    names [doc], [db] and [collection], which the module does not import:
    the first of them is evaluated before anything is read. *)
Definition adjustTrustScore_transaction
    (userId roomId : string) (actionType : TrustActionType) (reason : string)
    (relatedId createdBy : option string) (pointChange : Z) : Async Num :=
  _ ← resolve "doc"; _ ← resolve "db";
  userData ← transaction_get userId;
  match userData with
  | None => throw "User not found"
  | Some userData =>
      let currentScore :=
        or_default (trustScore userData) TRUST_CONSTANTS.INITIAL_SCORE in
      let newScore :=
        Math.max TRUST_CONSTANTS.MIN_SCORE
          (Math.min TRUST_CONSTANTS.MAX_SCORE
             (jsAdd currentScore pointChange)) in
      _ ← resolve "doc"; _ ← resolve "db";
      updated ← Date_new;
      _ ← transaction_update userId newScore updated;
      created ← Date_new;
      _ ← resolve "doc"; _ ← resolve "collection"; _ ← resolve "db";
      _ ← transaction_set
            {| userId := userId; roomId := roomId; action := actionType;
               points := pointChange; reason := reason;
               relatedId := relatedId; createdBy := createdBy;
               createdAt := created; action_updatedAt := None |};
      mret newScore
  end.

Definition adjustTrustScore
    (userId roomId : string) (actionType : TrustActionType) (reason : string)
    (relatedId createdBy : option string) (context : option TrustContext)
    : Async TrustResult :=
  try_catch
    (let pointChange := calculateTrustChange actionType context in
     result ← runFirestoreTransaction
       (adjustTrustScore_transaction userId roomId actionType reason
          relatedId createdBy pointChange);
     mret {| success := true; newScore := firebase.data result;
             bonusesApplied := None; error := None |})
    (λ msg, mret {| success := false; newScore := None;
                    bonusesApplied := None; error := Some msg |}).

(** [newScore] and [reason] have defaults, used when the argument is
    [undefined]. *)
Definition resetTrustScore
    (userId roomId : string) (newScore : option Num) (reason : option string)
    (resetBy : string) : Async TrustResult :=
  let newScore := default (Int TRUST_CONSTANTS.INITIAL_SCORE) newScore in
  let reason := default "Manual reset"%string reason in
  try_catch
    (let clampedScore :=
       Math.max TRUST_CONSTANTS.MIN_SCORE
         (Math.min TRUST_CONSTANTS.MAX_SCORE newScore) in
     updateResult ← updateDocument userId clampedScore;
     if truthy_message (firebase.error updateResult)
     then mret {| success := false; newScore := None; bonusesApplied := None;
                  error := firebase.error updateResult |}
     else
       _ ← createDocument userId roomId manual_adjustment
             (jsSub clampedScore TRUST_CONSTANTS.INITIAL_SCORE) reason
             (Some resetBy);
       mret {| success := true; newScore := None; bonusesApplied := None;
               error := None |})
    (λ msg, mret {| success := false; newScore := None;
                    bonusesApplied := None; error := Some msg |}).

(** ** Action handlers *)

Definition handleChoreCompletion (chore : Chore) (completedBy : string)
    : Async TrustResult :=
  try_catch
    (now ← Date_new;
     recentChores ← getDocuments (λ c,
       bool_decide (assignedTo c = completedBy)
       && bool_decide (status c = completed)
       && match completedAt c with
          | Some t => now - 30 * 24 * 60 * 60 * 1000 <=? t
          | None => false
          end);
     let consecutiveCount :=
       Z.of_nat (length (firebase.data recentChores)) in
     result ← adjustTrustScore completedBy (chore_roomId chore)
       chore_completed ("Completed chore: " +:+ title chore)
       (Some (chore_id chore)) (Some completedBy)
       (Some {| isRecurring := Some (recurring chore); wasOnTime := None;
                consecutiveCount := Some consecutiveCount;
                disputeWasValid := None |});
     mret {| success := success result; newScore := None;
             bonusesApplied := None; error := error result |})
    (λ msg, mret {| success := false; newScore := None;
                    bonusesApplied := None; error := Some msg |}).

Definition handleChoreDispute
    (chore : Chore) (disputedBy : string) (isValidDispute : bool)
    (resolution : string) : Async TrustResult :=
  try_catch
    (_ ← (if isValidDispute then
            adjustTrustScore (assignedTo chore) (chore_roomId chore)
              false_completion
              ("False completion disputed: " +:+ title chore)
              (Some (chore_id chore)) (Some disputedBy) None
          else
            _ ← adjustTrustScore disputedBy (chore_roomId chore)
                  chore_disputed_invalid
                  ("Invalid dispute raised: " +:+ title chore)
                  (Some (chore_id chore)) (Some (assignedTo chore)) None;
            adjustTrustScore (assignedTo chore) (chore_roomId chore)
              chore_confirmed
              ("Chore completion confirmed: " +:+ title chore)
              (Some (chore_id chore)) (Some disputedBy) None);
     mret {| success := true; newScore := None; bonusesApplied := None;
             error := None |})
    (λ msg, mret {| success := false; newScore := None;
                    bonusesApplied := None; error := Some msg |}).

(** *** Weekly sweep *)

(** [chore.status === 'completed' || chore.status === 'confirmed'] *)
Definition isDone (chore : Chore) : bool :=
  bool_decide (status chore = completed)
  || bool_decide (status chore = confirmed).

(** The members that a plain object inherits from [Object.prototype]. *)
Definition objectPrototype : list string :=
  [ "constructor"; "__defineGetter__"; "__defineSetter__"; "hasOwnProperty";
    "__lookupGetter__"; "__lookupSetter__"; "isPrototypeOf";
    "propertyIsEnumerable"; "toString"; "valueOf"; "__proto__";
    "toLocaleString" ]%string.

(** The object [choresByUser] is kept as the list of its own entries in
    insertion order. [Object.entries] enumerates keys that are array indices
    first; this changes the order of the ledger calls of the sweep only. *)
Fixpoint append_chore (choresByUser : list (string * list Chore))
    (chore : Chore) : list (string * list Chore) :=
  match choresByUser with
  | [] => [(assignedTo chore, [chore])]
  | (user, userChores) :: rest =>
      if bool_decide (user = assignedTo chore)
      then (user, userChores ++ [chore]) :: rest
      else (user, userChores) :: append_chore rest chore
  end.

(** The message of the [TypeError] for calling the missing [push] of an
    inherited member, in V8's wording for the source as written. *)
Definition NOT_A_FUNCTION : string :=
  "choresByUser[chore.assignedTo].push is not a function".

(** One step of the [forEach] that fills [choresByUser]. The lookup
    [choresByUser[chore.assignedTo]] finds the own entry or else a member
    inherited from [Object.prototype]; such a member is truthy, so no array
    is created for it, and it has no [push]: the call throws a
    [TypeError]. *)
Definition push_chore (choresByUser : list (string * list Chore))
    (chore : Chore) : Outcome (list (string * list Chore)) :=
  if bool_decide (assignedTo chore ∈ choresByUser.*1)
  then Resolved (append_chore choresByUser chore)
  else if bool_decide (assignedTo chore ∈ objectPrototype)
  then Rejected NOT_A_FUNCTION
  else Resolved (append_chore choresByUser chore).

Fixpoint forEach (weeklyChores : list Chore)
    (choresByUser : list (string * list Chore))
    : Outcome (list (string * list Chore)) :=
  match weeklyChores with
  | [] => Resolved choresByUser
  | chore :: rest =>
      match push_chore choresByUser chore with
      | Resolved choresByUser => forEach rest choresByUser
      | Rejected e => Rejected e
      end
  end.

Definition groupByAssignee (weeklyChores : list Chore)
    : Outcome (list (string * list Chore)) :=
  forEach weeklyChores [].

(** [completed / total >= 0.9 && total >= 3]. For array lengths the
    double-precision quotient is at least the double [0.9] exactly when
    [9 * total <= 10 * completed]: rounding is monotone, and a quotient
    below [9/10] is below it by at least [1 / (10 * total)], far more than
    the rounding error. *)
Definition earnsBonus (completedCount total : nat) : bool :=
  (9 * total <=? 10 * completedCount)%nat && (3 <=? total)%nat.

Section weekly.
(** The bounds of the current week, which the handler derives from the
    wall clock in the server's time zone: Sunday 00:00 and seven calendar
    days later. *)
Variables weekStart weekEnd : Z.
(** The decimal text of [Math.round(completionRate * 100)], a
    floating-point computation. *)
Variable roundPercent : nat → nat → string.

Fixpoint bonus_loop (roomId : string) (entries : list (string * list Chore))
    (bonusesApplied : nat) : Async nat :=
  match entries with
  | [] => mret bonusesApplied
  | (userId, userChores) :: rest =>
      let completedChores := List.filter isDone userChores in
      if earnsBonus (length completedChores) (length userChores)
      then
        _ ← adjustTrustScore userId roomId helpful_action
              ("Weekly consistency bonus ("
               +:+ roundPercent (length completedChores) (length userChores)
               +:+ "% completion)")
              None (Some "system"%string) None;
        bonus_loop roomId rest (S bonusesApplied)
      else bonus_loop roomId rest bonusesApplied
  end.

Definition calculateWeeklyTrustBonus (roomId : string) : Async TrustResult :=
  try_catch
    (weeklyChores ← getDocuments (λ c,
       bool_decide (chore_roomId c = roomId)
       && (weekStart <=? dueDate c) && (dueDate c <? weekEnd));
     (* [!weeklyChores.data] is false: [data] is always an array *)
     if truthy_message (firebase.error weeklyChores)
     then mret {| success := false; newScore := None;
                  bonusesApplied := None;
                  error := firebase.error weeklyChores |}
     else
       choresByUser ← (λ db,
         (db, groupByAssignee (firebase.data weeklyChores)));
       bonusesApplied ← bonus_loop roomId choresByUser 0%nat;
       mret {| success := true; newScore := None;
               bonusesApplied := Some bonusesApplied; error := None |})
    (λ msg, mret {| success := false; newScore := None;
                    bonusesApplied := None; error := Some msg |}).
End weekly.

(** * Notions of the specification *)

(** The clamp of the specification: saturation at the two bounds. *)
Definition clamp (score : Z) : Z :=
  Z.max TRUST_CONSTANTS.MIN_SCORE (Z.min TRUST_CONSTANTS.MAX_SCORE score).


(** A score within the bounds: an integer from 0 to 150. *)
Definition inRange (score : Num) : Prop :=
  match score with
  | Int z => 0 ≤ z ≤ 150
  | _ => False
  end.

(** The streak bonus as the specification words it. *)
Definition streakBonus (count : Z) : Z :=
  if 5 <=? count then Z.min (count - 4) 3 else 0.

(** The context that the chore-completion handler passes to the policy. *)
Definition streakContext (isRecurring : bool) (count : Z) : TrustContext :=
  {| isRecurring := Some isRecurring; wasOnTime := None;
     consecutiveCount := Some count; disputeWasValid := None |}.

(** The status message of each tier. *)
Definition tierMessage (level : TrustLevel) : string :=
  match level with
  | critical =>
      "Your trust score is critically low. Some features are restricted."
  | low => "Your trust score is low. Complete chores reliably to improve it."
  | medium => "Good standing! Keep up the reliable work."
  | high => "Excellent trustworthiness! You have full privileges."
  end.

(** The weekly cap of each tier. *)
Definition tierCap (level : TrustLevel) : option Z :=
  match level with
  | critical => Some 2
  | low => Some 5
  | medium | high => None
  end.

(** The result of a ledger call or a handler that reports success and
    nothing else. *)
Definition succeeded : TrustResult :=
  {| success := true; newScore := None; bonusesApplied := None;
     error := None |}.

(** A backend with the single user U, at a given stored score. *)
Definition scenarioDb (score : option Num) : Db :=
  {| users := {[ "U"%string := {| trustScore := score; updatedAt := 0 |} ]};
     trustActions := []; chores := []; clock := 1; outage := None |}.

Definition choresOf (u : string) (weeklyChores : list Chore) : list Chore :=
  List.filter (λ c, bool_decide (assignedTo c = u)) weeklyChores.

(** No chore of the list is assigned to an id that names a member of
    [Object.prototype]. *)
Definition plainAssignees (weeklyChores : list Chore) : Prop :=
  Forall (λ c, assignedTo c ∉ objectPrototype) weeklyChores.

(** What the grouping loop maintains: one entry per assignee met so far,
    holding that assignee's chores in order. *)
Definition grouped (d : list Chore) (g : list (string * list Chore)) : Prop :=
  NoDup g.*1
  ∧ Forall (λ e, e.2 = choresOf e.1 d ∧ e.2 ≠ []) g
  ∧ ∀ c, c ∈ d → assignedTo c ∈ g.*1.

(** Whether an entry of [choresByUser] passes the test of the sweep. *)
Definition qualifies (e : string * list Chore) : bool :=
  earnsBonus (length (List.filter isDone e.2)) (length e.2).

(** The chores of a room that are due within the week: the documents the
    query of the sweep selects. *)
Definition weekChores (weekStart weekEnd : Z) (roomId : string) (db : Db)
    : list Chore :=
  List.filter
    (λ c, bool_decide (chore_roomId c = roomId)
          && (weekStart <=? dueDate c) && (dueDate c <? weekEnd))
    (chores db).

(** A chore counts as done, in the words of the specification, when its
    status is completed or confirmed. *)
Definition finished (st : ChoreStatus) : bool :=
  match st with
  | completed | confirmed => true
  | pending | in_progress | disputed | overdue | skipped => false
  end.

(** The completion rate of a non-empty list of chores, as a rational. *)
Definition completionRate (cs : list Chore) : Q :=
  Z.of_nat (length (List.filter (λ c, finished (status c)) cs))
  # Pos.of_nat (length cs).

(** The rule of the specification: a rate of at least 0.9 over at least
    three chores of the week. *)
Definition deservesBonus (weekly : list Chore) (u : string) : Prop :=
  (9 # 10 <= completionRate (choresOf u weekly))%Q
  ∧ (3 ≤ length (choresOf u weekly))%nat.

(** The chores of the completer C, the first one disputed by D; a backend
    in which D has a user document and C has none, and one in which both
    have. *)
Definition choreOfC (id title : string) : Chore :=
  {| chore_id := id; chore_roomId := "room"; title := title;
     assignedTo := "C"; status := completed; recurring := false;
     dueDate := 3; completedAt := Some 2 |}.

Definition disputedChore : Chore := choreOfC "chore1" "Dishes".

Definition disputeDb : Db :=
  {| users := {[ "D"%string := {| trustScore := Some (Int 100);
                                  updatedAt := 0 |} ]};
     trustActions := [];
     chores := [disputedChore; choreOfC "chore2" "Laundry";
                choreOfC "chore3" "Bins"];
     clock := 1; outage := None |}.

Definition roomDb : Db :=
  {| users := {[ "C"%string := {| trustScore := Some (Int 100);
                                  updatedAt := 0 |};
                 "D"%string := {| trustScore := Some (Int 100);
                                  updatedAt := 0 |} ]};
     trustActions := [];
     chores := [disputedChore; choreOfC "chore2" "Laundry";
                choreOfC "chore3" "Bins"];
     clock := 1; outage := None |}.

(** The week of the sweep scenario. U has three chores, all done (one of
    them confirmed); V has three, one of them still pending; W has two, both
    done. U and V have a user document. *)
Definition weekChore (id assignee : string) (st : ChoreStatus) : Chore :=
  {| chore_id := id; chore_roomId := "room"; title := "Sweep";
     assignedTo := assignee; status := st; recurring := true;
     dueDate := 3; completedAt := None |}.

Definition sweepDb : Db :=
  {| users := {[ "U"%string := {| trustScore := Some (Int 100);
                                  updatedAt := 0 |};
                 "V"%string := {| trustScore := Some (Int 100);
                                  updatedAt := 0 |} ]};
     trustActions := [];
     chores := [weekChore "c1" "U" completed; weekChore "c2" "V" completed;
                weekChore "c3" "U" confirmed; weekChore "c4" "V" confirmed;
                weekChore "c5" "U" completed; weekChore "c6" "V" pending;
                weekChore "c7" "W" completed; weekChore "c8" "W" completed];
     clock := 1; outage := None |}.

(** The same week with one more chore, assigned to the id "constructor". *)
Definition prototypeDb : Db :=
  {| users := users sweepDb; trustActions := [];
     chores := chores sweepDb ++ [weekChore "c9" "constructor" completed];
     clock := 1; outage := None |}.

Definition unreachable (db : Db) : Db :=
  {| users := users db; trustActions := trustActions db;
     chores := chores db; clock := clock db;
     outage := Some "unavailable"%string |}.

From stdpp Require Import sorting pretty.
From Stdlib Require Import Qround.

Local Open Scope Z_scope.

(** * The rest of the trust module *)

(** The [default] branches of the two switches below cannot be reached: the
    level is always one of the four tiers. *)
Definition getTrustColor (score : Z) : string :=
  match getTrustLevel score with
  | critical => "#dc2626"
  | low => "#ef4444"
  | medium => "#f59e0b"
  | high => "#10b981"
  end.

Definition getTrustDescription (score : Z) : string :=
  match getTrustLevel score with
  | critical => "Critical - Limited privileges, requires supervision"
  | low => "Low - Some restrictions may apply"
  | medium => "Medium - Good standing with room"
  | high => "High - Excellent reliability and trustworthiness"
  end.

(** ** The gate on every number

    The tier and the capabilities of a score that need not be an integer:
    the same comparisons, which are all false for [NaN]. *)
Module num.

(** [score < bound] and [score >= bound] for an integer [bound]. *)
Definition lt (score : Num) (bound : Z) : bool :=
  match score with
  | Int z => z <? bound
  | MinusInfinity => true
  | NaN | Infinity => false
  end.

Definition ge (score : Num) (bound : Z) : bool :=
  match score with
  | Int z => bound <=? z
  | Infinity => true
  | NaN | MinusInfinity => false
  end.

Definition getTrustLevel (score : Num) : TrustLevel :=
  if lt score TRUST_CONSTANTS.THRESHOLD_LOW then critical
  else if lt score TRUST_CONSTANTS.THRESHOLD_MEDIUM then low
  else if lt score TRUST_CONSTANTS.THRESHOLD_HIGH then medium
  else high.

Definition canPerformAction (score : Num) (act : Capability) : bool :=
  let level := getTrustLevel score in
  match act with
  | create_chore => negb (bool_decide (level = critical))
  | dispute_chore => ge score TRUST_CONSTANTS.THRESHOLD_LOW
  | manage_bills => ge score TRUST_CONSTANTS.THRESHOLD_MEDIUM
  | invite_members => ge score TRUST_CONSTANTS.THRESHOLD_HIGH
  | delete_items => ge score TRUST_CONSTANTS.THRESHOLD_MEDIUM
  end.

Definition getTrustRestrictions (score : Num) : TrustRestrictions :=
  let level := getTrustLevel score in
  let restrictions := {|
    canCreateChores := canPerformAction score create_chore;
    canDisputeChores := canPerformAction score dispute_chore;
    canManageBills := canPerformAction score manage_bills;
    canInviteMembers := canPerformAction score invite_members;
    canDeleteItems := canPerformAction score delete_items;
    maxChoresPerWeek := None;
    requiresConfirmation :=
      bool_decide (level = critical) || bool_decide (level = low);
    message := None
  |} in
  let set (cap : option Z) (msg : string) : TrustRestrictions := {|
    canCreateChores := canCreateChores restrictions;
    canDisputeChores := canDisputeChores restrictions;
    canManageBills := canManageBills restrictions;
    canInviteMembers := canInviteMembers restrictions;
    canDeleteItems := canDeleteItems restrictions;
    maxChoresPerWeek := cap;
    requiresConfirmation := requiresConfirmation restrictions;
    message := Some msg
  |} in
  match level with
  | critical =>
      set (Some 2)
        "Your trust score is critically low. Some features are restricted."%string
  | low =>
      set (Some 5)
        "Your trust score is low. Complete chores reliably to improve it."%string
  | medium => set None "Good standing! Keep up the reliable work."%string
  | high =>
      set None "Excellent trustworthiness! You have full privileges."%string
  end.

End num.

(** The clause [where('userId', '==', id)] on an audit document. *)
Definition ofUser (id : string) (a : TrustAction) : bool :=
  bool_decide (userId a = id).

Module history.

(** The result object of [getTrustHistory]: [{ actions, error? }]. *)
Record HistoryResult := {
  actions : list TrustAction;
  error : option string
}.

Section ordered.
(** Firestore's [orderBy('createdAt', 'desc')]. Documents with equal
    [createdAt] come in the order of their generated ids, which are not
    modelled, so the ordering is a parameter. *)
Variable orderByCreatedAtDesc : list TrustAction → list TrustAction.

(** [getDocs(q)] for a query over [trustActions] with [where] clauses,
    [orderBy('createdAt', 'desc')] and, when given, [limit(n)]. *)
Definition getDocs (conditions : TrustAction → bool) (limitCount : option nat)
    : Async (list TrustAction) := λ db,
  match outage db with
  | Some e => (db, Rejected e)
  | None =>
      let ordered :=
        orderByCreatedAtDesc (List.filter conditions (trustActions db)) in
      (db, Resolved (match limitCount with
                     | Some n => take n ordered
                     | None => ordered
                     end))
  end.

(** [getDocuments('trustActions', conditions, 'createdAt', 'desc',
    limitCount)]: the limit is only applied [if (limitCount)]. *)
Definition getDocuments (conditions : TrustAction → bool) (limitCount : nat)
    : Async (Result (list TrustAction)) :=
  try_catch
    (documents ← getDocs conditions
                   (match limitCount with
                    | O => None
                    | S _ => Some limitCount
                    end);
     mret {| firebase.data := documents; firebase.error := None |})
    (λ msg, mret {| firebase.data := []; firebase.error := Some msg |}).

(** [limit] defaults to 50 when the argument is [undefined]. *)
Definition getTrustHistory (userId : string) (limit : option nat)
    : Async HistoryResult :=
  let limit := default 50%nat limit in
  try_catch
    (result ← getDocuments (ofUser userId) limit;
     if truthy_message (firebase.error result)
     then mret {| actions := []; error := firebase.error result |}
     else mret {| actions := firebase.data result; error := None |})
    (λ msg, mret {| actions := []; error := Some msg |}).
End ordered.

End history.

(** * Notions for the further properties *)

(** The tiers in increasing order of trust. *)
Definition tierRank (level : TrustLevel) : nat :=
  match level with
  | critical => 0
  | low => 1
  | medium => 2
  | high => 3
  end.


(** The audit documents of one user, in commit order. *)
Definition auditOf (u : string) (db : Db) : list TrustAction :=
  List.filter (ofUser u) (trustActions db).

(** An ordering of audit documents by [createdAt], most recent first, that
    leaves documents of the same instant in log order. *)
Definition notOlder (a b : TrustAction) : Prop := createdAt b ≤ createdAt a.

Global Instance notOlder_dec : RelDecision notOlder.
Proof. intros a b. unfold notOlder. apply _. Defined.

Definition newestFirst (l : list TrustAction) : list TrustAction :=
  merge_sort notOlder l.

(** * The payments module *)

Module payments.

Import Stdlib.Strings.Ascii.

(** ** M-Pesa formatting *)

(** [\d]: the ten ASCII digits. *)
Definition isDigit (c : Ascii.ascii) : bool :=
  match c with
  | "0" | "1" | "2" | "3" | "4" | "5" | "6" | "7" | "8" | "9" => true
  | _ => false
  end%char.

(** [s.replace(/\D/g, '')]. A string is the sequence of its UTF-8 bytes; a
    character outside ASCII consists of bytes that are not digits, so it is
    removed whole, as its UTF-16 code units are. *)
Fixpoint removeNonDigits (s : string) : string :=
  match s with
  | EmptyString => EmptyString
  | String c rest =>
      if isDigit c then String c (removeNonDigits rest)
      else removeNonDigits rest
  end.

(** [s.startsWith(p)] *)
Definition startsWith (s p : string) : bool := String.prefix p s.

(** [s.substring(1)] *)
Definition substring1 (s : string) : string :=
  match s with
  | EmptyString => EmptyString
  | String _ rest => rest
  end.

Definition formatMpesaPhone (phone : string) : string :=
  let cleaned := removeNonDigits phone in
  if startsWith cleaned "0" then "254" +:+ substring1 cleaned
  else if startsWith cleaned "7" || startsWith cleaned "1"
  then "254" +:+ cleaned
  else if negb (startsWith cleaned "254") then "254" +:+ cleaned
  else cleaned.

(** The fields of the local time that [new Date()] is read through;
    [month] counts from 0 as [getMonth()] does. *)
Record LocalTime := {
  fullYear : nat;
  month : nat;
  date : nat;
  hours : nat;
  minutes : nat;
  seconds : nat
}.

(** [n.toString()] for a non-negative integer. *)
Definition toString (n : nat) : string := pretty n.

(** [s.padStart(2, '0')] *)
Definition padStart2 (s : string) : string :=
  match String.length s with
  | O => "00" +:+ s
  | S O => "0" +:+ s
  | _ => s
  end.

Definition getMpesaTimestamp (now : LocalTime) : string :=
  toString (fullYear now)
  +:+ padStart2 (toString (month now + 1))
  +:+ padStart2 (toString (date now))
  +:+ padStart2 (toString (hours now))
  +:+ padStart2 (toString (minutes now))
  +:+ padStart2 (toString (seconds now)).

(** ** Payment methods *)

Inductive PaymentMethod := mpesa | bank_transfer | cash | card | paypal.

Record PaymentMethodInfo := {
  name : string;
  icon : string;
  currency : string;
  minAmount : Z;
  maxAmount : Z;
  description : string
}.

Definition PAYMENT_METHODS (method : PaymentMethod) : PaymentMethodInfo :=
  match method with
  | mpesa =>
      {| name := "M-Pesa"; icon := "📱"; currency := "KES";
         minAmount := 1; maxAmount := 300000;
         description := "Pay with M-Pesa mobile money" |}
  | bank_transfer =>
      {| name := "Bank Transfer"; icon := "🏦"; currency := "KES";
         minAmount := 100; maxAmount := 1000000;
         description := "Direct bank transfer" |}
  | cash =>
      {| name := "Cash"; icon := "💵"; currency := "KES";
         minAmount := 1; maxAmount := 50000;
         description := "Cash payment" |}
  | card =>
      {| name := "Card"; icon := "💳"; currency := "USD";
         minAmount := 1; maxAmount := 10000;
         description := "Credit/Debit card via Stripe" |}
  | paypal =>
      {| name := "PayPal"; icon := "🅿️"; currency := "USD";
         minAmount := 1; maxAmount := 10000;
         description := "PayPal payment" |}
  end.

(** [PAYMENT_METHODS[method] || null] *)
Definition getPaymentMethodInfo (method : PaymentMethod)
    : option PaymentMethodInfo :=
  Some (PAYMENT_METHODS method).

(** An amount: a JavaScript number, which is a finite value (a rational),
    [NaN] or an infinity. *)
Inductive Amount :=
  | Finite (q : Q)
  | NaN
  | PosInfinity
  | NegInfinity.

(** [amount < bound] and [amount > bound] for an integer [bound]; every
    comparison with [NaN] is false. *)
Definition lessThan (amount : Amount) (bound : Z) : bool :=
  match amount with
  | Finite q => negb (Qle_bool (inject_Z bound) q)
  | NegInfinity => true
  | NaN | PosInfinity => false
  end.

Definition greaterThan (amount : Amount) (bound : Z) : bool :=
  match amount with
  | Finite q => negb (Qle_bool q (inject_Z bound))
  | PosInfinity => true
  | NaN | NegInfinity => false
  end.

Record Validation := { valid : bool; error : option string }.

Definition validatePaymentAmount (method : PaymentMethod) (amount : Amount)
    : Validation :=
  match getPaymentMethodInfo method with
  | None => {| valid := false; error := Some "Invalid payment method" |}
  | Some methodInfo =>
      if lessThan amount (minAmount methodInfo)
      then {| valid := false;
              error := Some ("Minimum amount for " +:+ name methodInfo
                             +:+ " is " +:+ currency methodInfo +:+ " "
                             +:+ pretty (minAmount methodInfo)) |}
      else if greaterThan amount (maxAmount methodInfo)
      then {| valid := false;
              error := Some ("Maximum amount for " +:+ name methodInfo
                             +:+ " is " +:+ currency methodInfo +:+ " "
                             +:+ pretty (maxAmount methodInfo)) |}
      else {| valid := true; error := None |}
  end.

(** ** Processing payments *)

Inductive PaymentStatus := pending | completed | failed | cancelled.

(** The data of a document of the [payments] collection. *)
Record Payment := {
  billId : string;
  userId : string;
  amount : Amount;
  method : PaymentMethod;
  status : PaymentStatus;
  transactionId : option string;
  createdAt : Z;
  updatedAt : Z;
  confirmedAt : option Z;
  cancelReason : option string
}.

(** The backend as the payments module observes it: the [payments]
    collection by document id, the clock, and whether the backend is
    reachable. *)
Record World := {
  payments : gmap string Payment;
  clock : Z;
  outage : option string
}.

Definition Task (A : Type) : Type := World → World * Outcome A.

Global Instance Task_ret : MRet Task := λ A a w, (w, Resolved a).

Global Instance Task_bind : MBind Task := λ A B f m w,
  match m w with
  | (w', Resolved a) => f a w'
  | (w', Rejected e) => (w', Rejected e)
  end.

(** [try { body } catch (error) { handler error.message }] *)
Definition attempt {A} (body : Task A) (handler : string → Task A)
    : Task A := λ w,
  match body w with
  | (w', Resolved a) => (w', Resolved a)
  | (w', Rejected e) => handler e w'
  end.

(** [new Date()], [Date.now()] and [serverTimestamp()] *)
Definition now : Task Z := λ w, (w, Resolved (clock w)).

(** A string is truthy when it is not empty. *)
Definition nonEmpty (s : option string) : option string :=
  match s with
  | Some EmptyString => None
  | other => other
  end.

(** [Math.round]: the nearest integer, a tie going up. *)
Definition mathRound (a : Amount) : Amount :=
  match a with
  | Finite q => Finite (inject_Z (Qfloor (q + (1 # 2))))
  | other => other
  end.

(** The part of the STK push request that the arguments determine; the
    credentials, the timestamp and the callback URL come from the
    environment. *)
Record StkPushRequest := {
  TransactionType : string;
  Amount_ : Amount;
  PartyA : string;
  PhoneNumber : string;
  AccountReference : string;
  TransactionDesc : string
}.

(** The fields of the gateway's reply that the module reads; [None] is a
    field that the reply does not have. *)
Record StkPushResponse := {
  ResponseCode : option string;
  CheckoutRequestID : option string;
  MerchantRequestID : option string;
  ResponseDescription : option string
}.

Record MpesaResult := {
  mpesa_success : bool;
  mpesa_checkoutRequestId : option string;
  merchantRequestId : option string;
  mpesa_error : option string
}.

(** The result object of [processPayment], and of [confirmPayment] and
    [cancelPayment], which leave the two ids out. *)
Record PaymentResult := {
  success : bool;
  paymentId : option string;
  checkoutRequestId : option string;
  result_error : option string
}.

(** The [paymentData] argument; [bankDetails] is never read. *)
Record PaymentData := {
  phoneNumber : option string;
  cardToken : option string;
  data_transactionId : option string
}.

Definition failure (message : option string) : PaymentResult :=
  {| success := false; paymentId := None; checkoutRequestId := None;
     result_error := message |}.

Section gateway.
(** The id that Firestore generates for a new document. *)
Variable newId : gmap string Payment → string.
(** What the OAuth endpoint answers: the [access_token] field of its
    reply, or a network error. *)
Variable accessToken : Outcome (option string).
(** What the STK push endpoint answers to a request. *)
Variable stkPush : StkPushRequest → Outcome StkPushResponse.

(** [addDoc(collection(db, 'payments'), data)] *)
Definition addDoc (data : Payment) : Task string := λ w,
  match outage w with
  | Some e => (w, Rejected e)
  | None =>
      let id := newId (payments w) in
      ({| payments := <[id := data]> (payments w); clock := clock w;
          outage := outage w |}, Resolved id)
  end.

(** [updateDoc(doc(db, 'payments', id), fields)]: merges the fields into
    the document, and rejects when the document does not exist. The
    fields are [None] when one of them holds [undefined]: the SDK refuses
    such data before it sends anything (the instance is created without
    [ignoreUndefinedProperties]); its message, which also names the
    function, the field and the document, is shortened. *)
Definition updateDoc (id : string) (fields : option (Payment → Payment))
    : Task unit := λ w,
  match fields with
  | None => (w, Rejected "Unsupported field value: undefined"%string)
  | Some fields =>
      match outage w with
      | Some e => (w, Rejected e)
      | None =>
          match payments w !! id with
          | None => (w, Rejected ("No document to update: payments/" +:+ id))
          | Some p =>
              ({| payments := <[id := fields p]> (payments w);
                  clock := clock w; outage := outage w |}, Resolved ())
          end
      end
  end.

(** [createDocument('payments', data)]: [{ id, error }]. *)
Definition createDocument (data : Payment)
    : Task (option string * option string) :=
  attempt
    (stamp ← now;
     id ← addDoc {| billId := billId data; userId := userId data;
                    amount := amount data; method := method data;
                    status := status data;
                    transactionId := transactionId data;
                    createdAt := stamp; updatedAt := stamp;
                    confirmedAt := confirmedAt data;
                    cancelReason := cancelReason data |};
     mret (Some id, None))
    (λ msg, mret (None, Some msg)).

Definition touch (stamp : Z) (p : Payment) : Payment :=
  {| billId := billId p; userId := userId p; amount := amount p;
     method := method p; status := status p;
     transactionId := transactionId p; createdAt := createdAt p;
     updatedAt := stamp; confirmedAt := confirmedAt p;
     cancelReason := cancelReason p |}.

(** [updateDocument('payments', docId, fields)]: [{ error }]. A [docId]
    that is [null] makes the document reference, and with it the update,
    fail. *)
Definition updateDocument (docId : option string)
    (fields : option (Payment → Payment)) : Task (option string) :=
  attempt
    (stamp ← now;
     _ ← match docId with
         | Some id =>
             updateDoc id ((λ fields p, touch stamp (fields p)) <$> fields)
         | None => λ w, (w, Rejected "Invalid document reference"%string)
         end;
     mret None)
    (λ msg, mret (Some msg)).

(** The updates that the module writes. *)
Definition setStatus (st : PaymentStatus) (p : Payment) : Payment :=
  {| billId := billId p; userId := userId p; amount := amount p;
     method := method p; status := st;
     transactionId := transactionId p; createdAt := createdAt p;
     updatedAt := updatedAt p; confirmedAt := confirmedAt p;
     cancelReason := cancelReason p |}.

Definition setTransactionId (tx : option string) (p : Payment) : Payment :=
  {| billId := billId p; userId := userId p; amount := amount p;
     method := method p; status := status p;
     transactionId := tx; createdAt := createdAt p;
     updatedAt := updatedAt p; confirmedAt := confirmedAt p;
     cancelReason := cancelReason p |}.

Definition setConfirmedAt (stamp : Z) (p : Payment) : Payment :=
  {| billId := billId p; userId := userId p; amount := amount p;
     method := method p; status := status p;
     transactionId := transactionId p; createdAt := createdAt p;
     updatedAt := updatedAt p; confirmedAt := Some stamp;
     cancelReason := cancelReason p |}.

Definition setCancelReason (why : option string) (p : Payment) : Payment :=
  {| billId := billId p; userId := userId p; amount := amount p;
     method := method p; status := status p;
     transactionId := transactionId p; createdAt := createdAt p;
     updatedAt := updatedAt p; confirmedAt := confirmedAt p;
     cancelReason := why |}.

(** [getMpesaToken]: the token, or [null] when the request fails or the
    reply carries no token. *)
Definition getMpesaToken : Task (option string) := λ w,
  (w, Resolved (match accessToken with
                | Resolved token => nonEmpty token
                | Rejected _ => None
                end)).

(** The [fetch] of the STK push endpoint and the parsing of its reply. *)
Definition fetchStkPush (payload : StkPushRequest) : Task StkPushResponse :=
  λ w, (w, stkPush payload).

Definition initiateMpesaPayment
    (phone : string) (amt : Amount) (accountReference transactionDesc : string)
    : Task MpesaResult :=
  attempt
    (token ← getMpesaToken;
     match token with
     | None =>
         mret {| mpesa_success := false; mpesa_checkoutRequestId := None;
                 merchantRequestId := None;
                 mpesa_error := Some "Failed to get M-Pesa access token" |}
     | Some _ =>
         let formattedPhone := formatMpesaPhone phone in
         let stkPushPayload :=
           {| TransactionType := "CustomerPayBillOnline";
              Amount_ := mathRound amt; PartyA := formattedPhone;
              PhoneNumber := formattedPhone;
              AccountReference := accountReference;
              TransactionDesc := transactionDesc |} in
         data ← fetchStkPush stkPushPayload;
         if bool_decide (ResponseCode data = Some "0"%string)
         then mret {| mpesa_success := true;
                      mpesa_checkoutRequestId := CheckoutRequestID data;
                      merchantRequestId := MerchantRequestID data;
                      mpesa_error := None |}
         else mret {| mpesa_success := false;
                      mpesa_checkoutRequestId := None;
                      merchantRequestId := None;
                      mpesa_error :=
                        Some (default "M-Pesa payment initiation failed"%string
                                (nonEmpty (ResponseDescription data))) |}
     end)
    (λ msg, mret {| mpesa_success := false; mpesa_checkoutRequestId := None;
                    merchantRequestId := None; mpesa_error := Some msg |}).

(** The placeholder for Stripe: no charge is made. The [catch] branch of
    the source cannot be reached, [updateDocument] never rejects. *)
Definition processStripePayment (id : option string) (amt : Amount)
    (token : option string) : Task PaymentResult :=
  attempt
    (stamp ← now;
     _ ← updateDocument id (Some (λ p,
           setTransactionId (Some ("stripe_" +:+ pretty stamp))
             (setConfirmedAt stamp (setStatus completed p))));
     mret {| success := true; paymentId := id;
             checkoutRequestId := None; result_error := None |})
    (λ msg,
       _ ← updateDocument id (Some (setStatus failed));
       mret (failure (Some msg))).

(** The placeholder for PayPal. *)
Definition processPayPalPayment (id : option string) (amt : Amount)
    : Task PaymentResult :=
  attempt
    (stamp ← now;
     _ ← updateDocument id (Some (λ p,
           setTransactionId (Some ("paypal_" +:+ pretty stamp))
             (setConfirmedAt stamp (setStatus completed p))));
     mret {| success := true; paymentId := id;
             checkoutRequestId := None; result_error := None |})
    (λ msg,
       _ ← updateDocument id (Some (setStatus failed));
       mret (failure (Some msg))).

Definition processPayment
    (bill user : string) (amt : Amount) (via : PaymentMethod)
    (paymentData : PaymentData) : Task PaymentResult :=
  attempt
    (created ← now;
     paymentResult ← createDocument
       {| billId := bill; userId := user; amount := amt; method := via;
          status := pending; transactionId := None; createdAt := created;
          updatedAt := created; confirmedAt := None; cancelReason := None |};
     match nonEmpty (snd paymentResult) with
     | Some e => mret (failure (Some e))
     | None =>
         let id := fst paymentResult in
         match via with
         | mpesa =>
             match nonEmpty (phoneNumber paymentData) with
             | None =>
                 mret (failure
                         (Some "Phone number required for M-Pesa"%string))
             | Some phone =>
                 mpesaResult ← initiateMpesaPayment phone amt bill
                                 ("Bill payment - " +:+ bill);
                 if mpesa_success mpesaResult
                 then
                   _ ← updateDocument id
                         ((λ tx p,
                             setStatus pending
                               (setTransactionId (Some tx) p))
                          <$> mpesa_checkoutRequestId mpesaResult);
                   mret {| success := true; paymentId := id;
                           checkoutRequestId :=
                             mpesa_checkoutRequestId mpesaResult;
                           result_error := None |}
                 else
                   _ ← updateDocument id (Some (setStatus failed));
                   mret (failure (mpesa_error mpesaResult))
             end
         | cash =>
             stamp ← now;
             _ ← updateDocument id (Some (λ p,
                   setTransactionId (Some ("CASH_" +:+ pretty stamp))
                     (setConfirmedAt stamp (setStatus completed p))));
             mret {| success := true; paymentId := id;
                     checkoutRequestId := None; result_error := None |}
         | bank_transfer =>
             stamp ← now;
             _ ← updateDocument id
                   (Some (setTransactionId
                            (Some (default ("BANK_" +:+ pretty stamp)
                                     (nonEmpty
                                        (data_transactionId paymentData))))));
             mret {| success := true; paymentId := id;
                     checkoutRequestId := None; result_error := None |}
         | card => processStripePayment id amt (cardToken paymentData)
         | paypal => processPayPalPayment id amt
         end
     end)
    (λ msg, mret (failure (Some msg))).

Definition confirmPayment (id confirmedBy : string) (tx : option string)
    : Task PaymentResult :=
  attempt
    (stamp ← now;
     result ← updateDocument (Some id) (Some (λ p,
       let p := setConfirmedAt stamp (setStatus completed p) in
       match nonEmpty tx with
       | Some t => setTransactionId (Some t) p
       | None => p
       end));
     mret {| success := negb (bool_decide (is_Some (nonEmpty result)));
             paymentId := None; checkoutRequestId := None;
             result_error := result |})
    (λ msg, mret (failure (Some msg))).

(** Without a [reason] the update carries [cancelReason: undefined]. *)
Definition cancelPayment (id : string) (why : option string)
    : Task PaymentResult :=
  attempt
    (result ← updateDocument (Some id)
       ((λ reason p, setCancelReason (Some reason) (setStatus cancelled p))
        <$> why);
     mret {| success := negb (bool_decide (is_Some (nonEmpty result)));
             paymentId := None; checkoutRequestId := None;
             result_error := result |})
    (λ msg, mret (failure (Some msg))).
End gateway.

(** A string of digits. *)
Fixpoint allDigits (s : string) : bool :=
  match s with
  | EmptyString => true
  | String c rest => isDigit c && allDigits rest
  end.

End payments.

(** The payment document that [processPayment] creates first. *)
Definition pendingPayment (bill user : string) (amt : payments.Amount)
    (via : payments.PaymentMethod) (stamp : Z) : payments.Payment :=
  {| payments.billId := bill; payments.userId := user;
     payments.amount := amt; payments.method := via;
     payments.status := payments.pending; payments.transactionId := None;
     payments.createdAt := stamp; payments.updatedAt := stamp;
     payments.confirmedAt := None; payments.cancelReason := None |}.

(** The prefix of the transaction id that a method settled on the spot
    receives. *)
Definition settledPrefix (via : payments.PaymentMethod) : string :=
  match via with
  | payments.cash => "CASH_"
  | payments.card => "stripe_"
  | payments.paypal => "paypal_"
  | _ => ""
  end.

(** A payments backend with one completed cash payment. *)
Definition paidWorld : payments.World :=
  {| payments.payments :=
       {[ "pay1"%string :=
            {| payments.billId := "bill1"; payments.userId := "U";
               payments.amount := payments.Finite 500;
               payments.method := payments.cash;
               payments.status := payments.completed;
               payments.transactionId := Some "CASH_1"%string;
               payments.createdAt := 1; payments.updatedAt := 1;
               payments.confirmedAt := Some 1;
               payments.cancelReason := None |} ]};
     payments.clock := 2; payments.outage := None |}.

(** A gateway that grants a token and accepts every request, and an id
    generator, for the scenarios. *)
Definition demoId (m : gmap string payments.Payment) : string := "pay2".

Definition demoToken : Outcome (option string) :=
  Resolved (Some "token"%string).

Definition demoGateway (request : payments.StkPushRequest)
    : Outcome payments.StkPushResponse :=
  Resolved {| payments.ResponseCode := Some "0"%string;
              payments.CheckoutRequestID := Some "ws_CO_1"%string;
              payments.MerchantRequestID := Some "m1"%string;
              payments.ResponseDescription := Some "Success"%string |}.

Definition noPhone : payments.PaymentData :=
  {| payments.phoneNumber := None; payments.cardToken := None;
     payments.data_transactionId := None |}.

Definition withPhone (phone : string) : payments.PaymentData :=
  {| payments.phoneNumber := Some phone; payments.cardToken := None;
     payments.data_transactionId := None |}.

(** * Properties *)

(** ** Score policy and permission gate *)

Lemma getTrustLevel_cases (score : Z) :
  (score < 30 ∧ getTrustLevel score = critical)
  ∨ (30 ≤ score < 70 ∧ getTrustLevel score = low)
  ∨ (70 ≤ score < 100 ∧ getTrustLevel score = medium)
  ∨ (100 ≤ score ∧ getTrustLevel score = high).
Proof.
  unfold getTrustLevel, TRUST_CONSTANTS.THRESHOLD_LOW,
    TRUST_CONSTANTS.THRESHOLD_MEDIUM, TRUST_CONSTANTS.THRESHOLD_HIGH.
  destruct (Z.ltb_spec score 30); [left; split; [lia|done]|].
  destruct (Z.ltb_spec score 70); [right; left; split; [lia|done]|].
  destruct (Z.ltb_spec score 100); [right; right; left; split; [lia|done]|].
  right; right; right; split; [lia|done].
Qed.

(** C4. The tier of a score is [critical] below 30, [low] from 30 up to 69,
    [medium] from 70 up to 99 and [high] from 100 on; the six boundary
    scores 29, 30, 69, 70, 99 and 100 fall as the specification lists
    them. *)
Theorem getTrustLevel_thresholds :
  (∀ score : Z,
     (getTrustLevel score = critical ↔ score < 30)
     ∧ (getTrustLevel score = low ↔ 30 ≤ score < 70)
     ∧ (getTrustLevel score = medium ↔ 70 ≤ score < 100)
     ∧ (getTrustLevel score = high ↔ 100 ≤ score))
  ∧ getTrustLevel 29 = critical ∧ getTrustLevel 30 = low
  ∧ getTrustLevel 69 = low ∧ getTrustLevel 70 = medium
  ∧ getTrustLevel 99 = medium ∧ getTrustLevel 100 = high.
Proof.
  split; [|repeat split; reflexivity].
  intros score.
  destruct (getTrustLevel_cases score) as [[? ->]|[[? ->]|[[? ->]|[? ->]]]];
    repeat split; intros; try done; lia.
Qed.

Lemma streakBonus_range (count : Z) : 0 ≤ streakBonus count ≤ 3.
Proof. unfold streakBonus. destruct (Z.leb_spec 5 count); lia. Qed.

(** C5. For [chore_completed] the delta is the base 2, plus 1 for a
    recurring chore, plus the streak bonus [min(count - 4, 3)] from a count
    of 5 on (nothing below 5 or without a count); the sum lies between 2 and
    6, and the streak bonus is 0 at 4, 1 at 5, 3 at 8 and 3 at 20. *)
Theorem calculateTrustChange_chore_completed :
  (∀ (rec ontime valid : option bool) (count : option Z),
     let delta :=
       calculateTrustChange chore_completed
         (Some {| isRecurring := rec; wasOnTime := ontime;
                  consecutiveCount := count; disputeWasValid := valid |}) in
     delta = 2 + (if truthy rec then 1 else 0)
               + from_option streakBonus 0 count
     ∧ 2 ≤ delta ≤ 6)
  ∧ calculateTrustChange chore_completed None = 2
  ∧ streakBonus 4 = 0 ∧ streakBonus 5 = 1
  ∧ streakBonus 8 = 3 ∧ streakBonus 20 = 3
  ∧ calculateTrustChange chore_completed (Some (streakContext false 4)) = 2
  ∧ calculateTrustChange chore_completed (Some (streakContext false 5)) = 3
  ∧ calculateTrustChange chore_completed (Some (streakContext false 8)) = 5
  ∧ calculateTrustChange chore_completed (Some (streakContext false 20)) = 5
  ∧ calculateTrustChange chore_completed (Some (streakContext true 20)) = 6.
Proof.
  split; [|repeat split; reflexivity].
  intros rec ontime valid count delta. subst delta.
  unfold calculateTrustChange, TRUST_CONSTANTS.POINTS.CHORE_COMPLETED. simpl.
  destruct count as [count|]; simpl.
  - pose proof (streakBonus_range count) as Hb. unfold streakBonus in *.
    destruct (Z.eqb_spec count 0) as [->|Hne]; simpl.
    + destruct (truthy rec); simpl; lia.
    + destruct (Z.leb_spec 5 count); destruct (truthy rec); lia.
  - destruct (truthy rec); lia.
Qed.

(** C6. For [bill_paid_on_time] the delta is +3 when the context says the
    payment was on time and the late penalty -2 when it says it was not,
    whatever the other fields of the context are. *)
Theorem calculateTrustChange_bill_paid_on_time :
  ∀ (rec valid : option bool) (count : option Z),
    calculateTrustChange bill_paid_on_time
      (Some {| isRecurring := rec; wasOnTime := Some true;
               consecutiveCount := count; disputeWasValid := valid |})
    = 3
    ∧ calculateTrustChange bill_paid_on_time
        (Some {| isRecurring := rec; wasOnTime := Some false;
                 consecutiveCount := count; disputeWasValid := valid |})
      = -2
    ∧ calculateTrustChange bill_paid_late None = -2.
Proof. intros. repeat split; reflexivity. Qed.

(** C9. The restrictions of a score follow the permission table, ask for
    confirmation exactly in the tiers critical and low, cap the weekly
    chores at 2 (critical) and 5 (low) and not otherwise, and carry the
    message of the tier. *)
Theorem getTrustRestrictions_table (score : Z) :
  let r := getTrustRestrictions score in
  let level := getTrustLevel score in
  (canCreateChores r = true ↔ level ≠ critical)
  ∧ (canDisputeChores r = true ↔ 30 ≤ score)
  ∧ (canManageBills r = true ↔ 70 ≤ score)
  ∧ (canInviteMembers r = true ↔ 100 ≤ score)
  ∧ (canDeleteItems r = true ↔ 70 ≤ score)
  ∧ (requiresConfirmation r = true ↔ level = critical ∨ level = low)
  ∧ maxChoresPerWeek r = tierCap level
  ∧ message r = Some (tierMessage level)
  ∧ (∀ act, canPerformAction score act =
            match act with
            | create_chore => canCreateChores r
            | dispute_chore => canDisputeChores r
            | manage_bills => canManageBills r
            | invite_members => canInviteMembers r
            | delete_items => canDeleteItems r
            end).
Proof.
  intros r level. subst r level. unfold getTrustRestrictions.
  assert (Hcap : ∀ act, canPerformAction score act =
            match act with
            | create_chore => negb (bool_decide (getTrustLevel score = critical))
            | dispute_chore => 30 <=? score
            | manage_bills | delete_items => 70 <=? score
            | invite_members => 100 <=? score
            end) by (intros []; reflexivity).
  destruct (getTrustLevel score) eqn:Hlevel; cbn [canCreateChores
    canDisputeChores canManageBills canInviteMembers canDeleteItems
    maxChoresPerWeek requiresConfirmation message tierCap tierMessage];
    rewrite !Hcap;
    (repeat split; try done;
     try (rewrite Z.leb_le; done); try (intros []; done);
     try (rewrite negb_true_iff, bool_decide_eq_false; done);
     try (rewrite orb_true_iff, !bool_decide_eq_true; done)).
Qed.

(** ** Score policy and permission gate: monotonicity and nesting *)

(** X1. The tier never drops when the score grows. *)
Theorem getTrustLevel_monotone (s s' : Z) :
  s ≤ s' →
  (tierRank (getTrustLevel s) ≤ tierRank (getTrustLevel s'))%nat.
Proof.
  intros Hle.
  destruct (getTrustLevel_cases s) as [[? ->]|[[? ->]|[[? ->]|[? ->]]]];
    destruct (getTrustLevel_cases s') as [[? ->]|[[? ->]|[[? ->]|[? ->]]]];
    cbn; lia.
Qed.

Lemma getTrustLevel_monotone_witness :
  (tierRank (getTrustLevel 29) ≤ tierRank (getTrustLevel 30))%nat.
Proof. apply (getTrustLevel_monotone 29 30). lia. Defined.

Lemma canPerformAction_threshold (score : Z) (act : Capability) :
  canPerformAction score act = true ↔
  match act with
  | create_chore | dispute_chore => 30 ≤ score
  | manage_bills | delete_items => 70 ≤ score
  | invite_members => 100 ≤ score
  end.
Proof.
  destruct act; cbn; rewrite ?Z.leb_le; try done.
  rewrite negb_true_iff, bool_decide_eq_false.
  destruct (getTrustLevel_cases score) as [[? ->]|[[? ->]|[[? ->]|[? ->]]]];
    split; intros; try done; lia.
Qed.

(** X2. A capability that a score grants is granted by every higher
    score. *)
Theorem canPerformAction_monotone (s s' : Z) (act : Capability) :
  s ≤ s' →
  canPerformAction s act = true →
  canPerformAction s' act = true.
Proof.
  rewrite !canPerformAction_threshold. destruct act; lia.
Qed.

Lemma canPerformAction_monotone_witness :
  canPerformAction 120 manage_bills = true.
Proof. apply (canPerformAction_monotone 70 120); [lia|reflexivity]. Defined.





(** X4. Whatever the action and the context, one action moves the score by
    at least -10 and at most +6; completions, confirmations and helpful
    actions reward, disputes, false completions and late bills penalise, a
    manual adjustment has no delta of its own. *)
Theorem calculateTrustChange_range
    (act : TrustActionType) (ctx : option TrustContext) :
  let d := calculateTrustChange act ctx in
  -10 ≤ d ≤ 6
  ∧ match act with
    | chore_completed | chore_confirmed | helpful_action => 0 < d
    | chore_disputed_valid | chore_disputed_invalid | false_completion
    | bill_paid_late => d < 0
    | bill_paid_on_time => d = 3 ∨ d = -2
    | manual_adjustment => d = 0
    end.
Proof.
  intros d. subst d. unfold calculateTrustChange.
  destruct act; cbv [TRUST_CONSTANTS.POINTS.CHORE_COMPLETED
    TRUST_CONSTANTS.POINTS.CHORE_CONFIRMED
    TRUST_CONSTANTS.POINTS.CHORE_DISPUTED_VALID
    TRUST_CONSTANTS.POINTS.CHORE_DISPUTED_INVALID
    TRUST_CONSTANTS.POINTS.FALSE_COMPLETION
    TRUST_CONSTANTS.POINTS.BILL_PAID_ON_TIME
    TRUST_CONSTANTS.POINTS.BILL_PAID_LATE
    TRUST_CONSTANTS.POINTS.HELPFUL_ACTION]; try lia.
  - destruct (truthy (ctx ≫= isRecurring));
      destruct (ctx ≫= consecutiveCount) as [count|];
      try lia;
      destruct (Z.eqb_spec count 0); destruct (Z.leb_spec 5 count);
      cbn [negb andb]; lia.
  - destruct (truthy (ctx ≫= wasOnTime)); lia.
Qed.

(** X5. [bill_paid_on_time] rewards only when the context carries
    [wasOnTime: true]; with no context, or with the flag missing or false,
    it yields the late penalty. *)
Theorem calculateTrustChange_bill_needs_flag (ctx : option TrustContext) :
  (calculateTrustChange bill_paid_on_time ctx = 3
   ↔ ctx ≫= wasOnTime = Some true)
  ∧ (calculateTrustChange bill_paid_on_time ctx = -2
     ↔ ctx ≫= wasOnTime ≠ Some true).
Proof.
  unfold calculateTrustChange.
  destruct (ctx ≫= wasOnTime) as [[]|]; cbn; split; split; try done.
Qed.

(** X6. The delta of a completed chore never drops when the streak count
    grows, and from a count of 7 on it no longer changes. *)
Theorem calculateTrustChange_streak_monotone
    (rec ontime valid : option bool) (c c' : Z) :
  c ≤ c' →
  let delta count :=
    calculateTrustChange chore_completed
      (Some {| isRecurring := rec; wasOnTime := ontime;
               consecutiveCount := Some count; disputeWasValid := valid |}) in
  delta c ≤ delta c' ∧ (7 ≤ c → delta c' = delta c).
Proof.
  intros Hle delta. subst delta. unfold calculateTrustChange. cbn.
  unfold TRUST_CONSTANTS.POINTS.CHORE_COMPLETED.
  destruct (truthy rec);
    destruct (Z.eqb_spec c 0); destruct (Z.leb_spec 5 c);
    destruct (Z.eqb_spec c' 0); destruct (Z.leb_spec 5 c');
    cbn [negb andb]; lia.
Qed.

Lemma calculateTrustChange_streak_monotone_witness :
  calculateTrustChange chore_completed (Some (streakContext true 5))
  ≤ calculateTrustChange chore_completed (Some (streakContext true 9))
  ∧ calculateTrustChange chore_completed (Some (streakContext true 30))
    = calculateTrustChange chore_completed (Some (streakContext true 7)).
Proof.
  split.
  - apply (calculateTrustChange_streak_monotone
             (Some true) None None 5 9). lia.
  - apply (calculateTrustChange_streak_monotone
             (Some true) None None 7 30); lia.
Defined.



(** X8. Two scores are shown in the same colour, and with the same
    description, exactly when they are in the same tier. *)
Theorem getTrustColor_by_tier (s s' : Z) :
  (getTrustColor s = getTrustColor s' ↔ getTrustLevel s = getTrustLevel s')
  ∧ (getTrustDescription s = getTrustDescription s'
     ↔ getTrustLevel s = getTrustLevel s').
Proof.
  unfold getTrustColor, getTrustDescription.
  destruct (getTrustLevel s), (getTrustLevel s'); split; split; done.
Qed.

(** ** Trust ledger *)

Ltac run_async :=
  unfold resetTrustScore, runFirestoreTransaction, runTransaction,
    updateDocument, createDocument, getDocuments, getDocs, updateDoc, addDoc,
    transaction_get, transaction_update, transaction_set, Date_new,
    try_catch, throw, with_users, with_trustActions, mbind, mret,
    Async_bind, Async_ret;
  cbn [users trustActions chores clock outage with_users with_trustActions
       firebase.data firebase.error].


(** The callback throws before it reads: [doc] is bound nowhere. *)
Lemma adjustTrustScore_transaction_throws uid rid act rsn rel by_ d db :
  adjustTrustScore_transaction uid rid act rsn rel by_ d db
  = (db, Rejected (NOT_DEFINED "doc")).
Proof. reflexivity. Qed.

(** So the transaction fails, whatever the backend holds. *)
Lemma runFirestoreTransaction_ledger uid rid act rsn rel by_ d db :
  runFirestoreTransaction
    (adjustTrustScore_transaction uid rid act rsn rel by_ d) db
  = (db, Resolved {| firebase.data := None;
                     firebase.error := Some (NOT_DEFINED "doc") |}).
Proof.
  unfold runFirestoreTransaction, runTransaction, try_catch, mbind, mret,
    Async_bind, Async_ret.
  by rewrite adjustTrustScore_transaction_throws.
Qed.

(** And the ledger, which does not read the [error] of the transaction's
    result, reports a success without a new score and writes nothing. *)
Lemma adjustTrustScore_inert db uid rid act rsn rel by_ ctx :
  adjustTrustScore uid rid act rsn rel by_ ctx db = (db, Resolved succeeded).
Proof.
  unfold adjustTrustScore, try_catch, mbind, mret, Async_bind, Async_ret.
  by rewrite runFirestoreTransaction_ledger.
Qed.

(** C1. The ledger does not store the clamped sum: a [chore_confirmed]
    (delta +1) applied to a user at score 100, as the dispute handler
    applies it, reports a success and leaves the score at 100, where the
    clamped sum is 101; no audit document is written either. *)
Theorem adjustTrustScore_stores_nothing :
  let '(db', r) :=
    adjustTrustScore "U" "room" chore_confirmed
      "Chore completion confirmed: Dishes" (Some "chore1"%string)
      (Some "D"%string) None (scenarioDb (Some (Int 100))) in
  calculateTrustChange chore_confirmed None = 1
  ∧ clamp (100 + 1) = 101
  ∧ r = Resolved {| success := true; newScore := None;
                    bonusesApplied := None; error := None |}
  ∧ trustScore <$> users db' !! "U"%string = Some (Some (Int 100))
  ∧ trustActions db' = [].
Proof. rewrite adjustTrustScore_inert. repeat split; reflexivity. Qed.

(** C2. An apply that reports a success creates no audit document: for the
    user at score 5 found to have falsely completed a chore (delta -10) the
    ledger resolves with [success: true], the log stays empty and the score
    stays 5. *)
Theorem adjustTrustScore_logs_nothing :
  let '(db', r) :=
    adjustTrustScore "U" "room" false_completion
      "False completion disputed: Dishes" (Some "chore1"%string)
      (Some "D"%string) None (scenarioDb (Some (Int 5))) in
  calculateTrustChange false_completion None = -10
  ∧ clamp (5 + -10) = 0
  ∧ (∃ res, r = Resolved res ∧ success res = true ∧ error res = None)
  ∧ trustActions db' = []
  ∧ trustScore <$> users db' !! "U"%string = Some (Some (Int 5)).
Proof.
  rewrite adjustTrustScore_inert.
  split; [reflexivity|]. split; [reflexivity|].
  split; [by eexists|]. split; reflexivity.
Qed.

(** C10. A stored score of exactly 0 is not replaced by anything computed
    from 100: a [false_completion] (delta -10) applied to a user whose
    stored score is 0 leaves the 0 in place, where the claim has
    [max(0, min(150, 100 - 10)) = 90] stored; applied to a user document
    without a score it leaves the document without one. *)
Theorem adjustTrustScore_zero_stays :
  let apply :=
    adjustTrustScore "U" "room" false_completion
      "False completion disputed: Dishes" (Some "chore1"%string)
      (Some "D"%string) None in
  Z.max 0 (Z.min 150 (100 + calculateTrustChange false_completion None)) = 90
  ∧ apply (scenarioDb (Some (Int 0)))
    = (scenarioDb (Some (Int 0)), Resolved succeeded)
  ∧ trustScore
    <$> users (fst (apply (scenarioDb (Some (Int 0))))) !! "U"%string
    = Some (Some (Int 0))
  ∧ apply (scenarioDb None) = (scenarioDb None, Resolved succeeded)
  ∧ newScore succeeded = None.
Proof.
  intros apply. subst apply. rewrite !adjustTrustScore_inert.
  repeat split; reflexivity.
Qed.

(** X9. An apply is all or nothing and never rejects: either nothing at all
    is written and the result carries no new score, or the user's score and
    one audit document are written together and the result carries the
    score written. In both cases the result says [success: true]. *)
Theorem adjustTrustScore_all_or_nothing db uid rid act rsn rel by_ ctx :
  let '(db', o) := adjustTrustScore uid rid act rsn rel by_ ctx db in
  ∃ r, o = Resolved r ∧ success r = true ∧ error r = None
    ∧ ((db' = db ∧ newScore r = None)
       ∨ (∃ u n rec,
            users db !! uid = Some u
            ∧ newScore r = Some n
            ∧ users db' = <[uid := {| trustScore := Some n;
                                      updatedAt := clock db |}]> (users db)
            ∧ trustActions db' = trustActions db ++ [rec]
            ∧ userId rec = uid ∧ action rec = act)).
Proof. rewrite adjustTrustScore_inert. eexists. eauto 10. Qed.

(** X10. An apply touches nothing but the one user document and the end of
    the audit log: the chores, the clock, the set of user ids and every
    other user's document and audit documents stay as they were, and the
    audit log only grows at its end. *)
Theorem adjustTrustScore_frame db uid rid act rsn rel by_ ctx :
  let '(db', _) := adjustTrustScore uid rid act rsn rel by_ ctx db in
  chores db' = chores db ∧ clock db' = clock db ∧ outage db' = outage db
  ∧ dom (users db') = dom (users db)
  ∧ trustActions db `prefix_of` trustActions db'
  ∧ (∀ v, v ≠ uid →
          users db' !! v = users db !! v ∧ auditOf v db' = auditOf v db).
Proof. rewrite adjustTrustScore_inert. repeat split; done. Qed.

Lemma adjustTrustScore_frame_witness :
  users (fst (adjustTrustScore "U" "room" helpful_action "Helped" None None
                None sweepDb)) !! "V"%string
  = users sweepDb !! "V"%string.
Proof.
  pose proof (adjustTrustScore_frame sweepDb "U" "room" helpful_action
                "Helped" None None None) as H.
  destruct (adjustTrustScore "U" "room" helpful_action "Helped" None None
              None sweepDb) as [db' o].
  destruct H as (_ & _ & _ & _ & _ & H).
  exact (proj1 (H "V"%string ltac:(discriminate))).
Defined.

(** X11. The ledger never writes. Whatever the user, the action and the
    state of the backend, the transaction fails with an error (that of the
    unbound identifier [doc]) and returns no data; the ledger resolves with
    [success: true], no error and no new score, and the backend is exactly
    as it was: no score moves, up or down, and the audit log does not
    grow. *)
Theorem adjustTrustScore_never_writes db uid rid act rsn rel by_ ctx :
  (∃ e, runFirestoreTransaction
          (adjustTrustScore_transaction uid rid act rsn rel by_
             (calculateTrustChange act ctx)) db
        = (db, Resolved {| firebase.data := None;
                           firebase.error := Some e |})
        ∧ e ≠ ""%string)
  ∧ adjustTrustScore uid rid act rsn rel by_ ctx db
    = (db, Resolved {| success := true; newScore := None;
                       bonusesApplied := None; error := None |}).
Proof.
  split; [|apply adjustTrustScore_inert].
  eexists. split; [apply runFirestoreTransaction_ledger|done].
Qed.

(** ** Manual reset *)



(** What a reset writes for an existing user on a reachable backend. *)
Lemma resetTrustScore_writes db uid rid target rsn resetBy u :
  users db !! uid = Some u →
  outage db = None →
  let stored :=
    Math.max TRUST_CONSTANTS.MIN_SCORE
      (Math.min TRUST_CONSTANTS.MAX_SCORE (default (Int 100) target)) in
  resetTrustScore uid rid target rsn resetBy db =
    ({| users := <[uid := {| trustScore := Some stored;
                             updatedAt := clock db |}]> (users db);
        trustActions :=
          trustActions db
          ++ [{| userId := uid; roomId := rid; action := manual_adjustment;
                 points := jsSub stored 100;
                 reason := default "Manual reset"%string rsn;
                 relatedId := None; createdBy := Some resetBy;
                 createdAt := clock db;
                 action_updatedAt := Some (clock db) |}];
        chores := chores db; clock := clock db; outage := outage db |},
     Resolved succeeded).
Proof.
  intros Hu Hout stored. run_async. rewrite Hout, Hu. cbn.
  rewrite ?Hout. reflexivity.
Qed.

(** C7. A reset does not clamp every target into [0, 150]: for the target
    [NaN] it reports a success, stores [NaN] as the user's score and logs a
    [manual_adjustment] whose points are [NaN]. *)
Theorem resetTrustScore_NaN :
  let '(db', r) :=
    resetTrustScore "U" "room" (Some NaN) None "admin"
      (scenarioDb (Some (Int 37))) in
  r = Resolved {| success := true; newScore := None; bonusesApplied := None;
                  error := None |}
  ∧ users db' !! "U"%string
    = Some {| trustScore := Some NaN; updatedAt := 1 |}
  ∧ ¬ inRange NaN
  ∧ (action <$> trustActions db') = [manual_adjustment]
  ∧ (points <$> trustActions db') = [NaN].
Proof.
  split; [reflexivity|]. split; [reflexivity|]. split; [by intros []|].
  split; reflexivity.
Qed.

(** X13. A reset that cannot update the user reports the failure and writes
    nothing, in particular no audit document: this is so when the user
    document does not exist, and when the backend rejects the update with
    a (non-empty) error message. *)
Theorem resetTrustScore_failure db uid rid target rsn resetBy :
  (users db !! uid = None ∧ outage db = None)
  ∨ (∃ e, outage db = Some e ∧ e ≠ ""%string) →
  ∃ e, resetTrustScore uid rid target rsn resetBy db
       = (db, Resolved {| success := false; newScore := None;
                          bonusesApplied := None; error := Some e |})
       ∧ e ≠ ""%string.
Proof.
  intros [[Hu Hout]|(e & Hout & He)]; run_async; rewrite Hout.
  - rewrite Hu. cbn. eexists. split; [reflexivity|done].
  - destruct e as [|a e]; [done|]. cbn. eexists. split; [reflexivity|done].
Qed.

Lemma resetTrustScore_failure_witness :
  ∃ e, resetTrustScore "W" "room" (Some (Int 120)) None "admin"
         (scenarioDb (Some (Int 37)))
       = (scenarioDb (Some (Int 37)),
          Resolved {| success := false; newScore := None;
                      bonusesApplied := None; error := Some e |})
       ∧ e ≠ ""%string.
Proof.
  apply (resetTrustScore_failure (scenarioDb (Some (Int 37))) "W" "room"
           (Some (Int 120)) None "admin").
  left. split; reflexivity.
Defined.

(** A reset called without a target and without a reason restores the
    initial score 100 and logs a [manual_adjustment] of 0 points with the
    reason "Manual reset". *)
Lemma resetTrustScore_defaults db uid rid resetBy u :
  users db !! uid = Some u →
  outage db = None →
  let '(db', r) := resetTrustScore uid rid None None resetBy db in
  r = Resolved {| success := true; newScore := None;
                  bonusesApplied := None; error := None |}
  ∧ trustScore <$> users db' !! uid = Some (Some (Int 100))
  ∧ ∃ rec, trustActions db' = trustActions db ++ [rec]
      ∧ points rec = Int 0 ∧ reason rec = "Manual reset"%string
      ∧ action rec = manual_adjustment.
Proof.
  intros Hu Hout. rewrite (resetTrustScore_writes _ _ _ _ _ _ _ Hu Hout).
  cbn. split; [done|]. split; [by rewrite lookup_insert_eq|].
  eexists. split; [reflexivity|]. done.
Qed.

Lemma resetTrustScore_defaults_witness :
  trustScore
  <$> users (fst (resetTrustScore "U" "room" None None "admin"
                    (scenarioDb (Some (Int 12))))) !! "U"%string
  = Some (Some (Int 100)).
Proof.
  pose proof (resetTrustScore_defaults (scenarioDb (Some (Int 12))) "U"
                "room" "admin" _ eq_refl eq_refl) as H.
  destruct (resetTrustScore "U" "room" None None "admin"
              (scenarioDb (Some (Int 12)))) as [db' r].
  exact (proj1 (proj2 H)).
Defined.



(** ** Action handlers *)

Lemma handleChoreCompletion_inert db chore completedBy :
  handleChoreCompletion chore completedBy db = (db, Resolved succeeded).
Proof.
  unfold handleChoreCompletion, getDocuments, getDocs, Date_new, try_catch,
    mbind, mret, Async_bind, Async_ret.
  destruct (outage db); cbn [firebase.data];
    by rewrite adjustTrustScore_inert.
Qed.

Lemma handleChoreDispute_inert db chore disputedBy valid resolution :
  handleChoreDispute chore disputedBy valid resolution db
  = (db, Resolved succeeded).
Proof.
  unfold handleChoreDispute, try_catch, mbind, mret, Async_bind, Async_ret.
  destruct valid; by rewrite !adjustTrustScore_inert.
Qed.

(** X15. Completing a chore changes nothing: whoever completes which chore,
    recurring or not and whatever the streak, the handler resolves with
    [success: true] and the backend is exactly as it was, so no score has
    moved and no audit document was written. *)
Theorem handleChoreCompletion_effect db chore completedBy :
  let '(db', r) := handleChoreCompletion chore completedBy db in
  r = Resolved {| success := true; newScore := None; bonusesApplied := None;
                  error := None |}
  ∧ db' = db
  ∧ users db' !! completedBy = users db !! completedBy
  ∧ trustActions db' = trustActions db.
Proof. by rewrite handleChoreCompletion_inert. Qed.

(** X16. Completing a chore never reports a failure: the handler resolves
    with [success: true] and no error on every input, and for a user
    without a document it does so having written nothing. *)
Theorem handleChoreCompletion_always_success db chore completedBy :
  let '(db', o) := handleChoreCompletion chore completedBy db in
  o = Resolved {| success := true; newScore := None; bonusesApplied := None;
                  error := None |}
  ∧ (users db !! completedBy = None → db' = db).
Proof. by rewrite handleChoreCompletion_inert. Qed.

Lemma handleChoreCompletion_always_success_witness :
  fst (handleChoreCompletion disputedChore "C" disputeDb) = disputeDb.
Proof.
  pose proof (handleChoreCompletion_always_success disputeDb disputedChore
                "C") as H.
  destruct (handleChoreCompletion disputedChore "C" disputeDb) as [db' o].
  exact (proj2 H eq_refl).
Defined.

(** X17. Resolving a dispute changes nothing: valid or invalid, between
    whichever users, the handler resolves with [success: true] and the
    backend is exactly as it was; neither the completer nor the disputer is
    penalised or rewarded and no audit document is written. *)
Theorem handleChoreDispute_effect db chore disputedBy valid resolution :
  let '(db', r) :=
    handleChoreDispute chore disputedBy valid resolution db in
  r = Resolved {| success := true; newScore := None; bonusesApplied := None;
                  error := None |}
  ∧ db' = db
  ∧ users db' !! assignedTo chore = users db !! assignedTo chore
  ∧ users db' !! disputedBy = users db !! disputedBy
  ∧ trustActions db' = trustActions db.
Proof. by rewrite handleChoreDispute_inert. Qed.

(** ** Weekly sweep *)

Lemma choresOf_snoc_same u d c :
  assignedTo c = u → choresOf u (d ++ [c]) = choresOf u d ++ [c].
Proof.
  intros H. unfold choresOf. rewrite List.filter_app. cbn.
  by rewrite bool_decide_eq_true_2.
Qed.

Lemma choresOf_snoc_other u d c :
  assignedTo c ≠ u → choresOf u (d ++ [c]) = choresOf u d.
Proof.
  intros H. unfold choresOf. rewrite List.filter_app. cbn.
  rewrite bool_decide_eq_false_2 by done. apply app_nil_r.
Qed.

Lemma choresOf_nil_iff u d :
  choresOf u d = [] ↔ ∀ c, c ∈ d → assignedTo c ≠ u.
Proof.
  unfold choresOf. induction d as [|c d IH]; cbn.
  - split; [intros _ c Hc; inversion Hc|done].
  - case_bool_decide as Hc.
    + split; [done|]. intros H. destruct (H c); [left|done].
    + rewrite IH. split.
      * intros H c' Hc'. apply elem_of_cons in Hc' as [->|?]; auto.
      * intros H c' Hc'. apply H. by right.
Qed.

Section push.
Context (c : Chore) (R R' : string * list Chore → Prop).
Hypothesis other : ∀ u cs, R (u, cs) → u ≠ assignedTo c → R' (u, cs).
Hypothesis same : ∀ cs, R (assignedTo c, cs) → R' (assignedTo c, cs ++ [c]).

Lemma append_chore_Forall g :
  NoDup g.*1 → (assignedTo c ∉ g.*1 → R' (assignedTo c, [c])) →
  Forall R g → Forall R' (append_chore g c).
Proof using other same.
  induction g as [|[u cs] g IH]; cbn; intros Hnd Hnew Hall.
  - constructor; [|constructor]. apply Hnew. apply not_elem_of_nil.
  - apply NoDup_cons in Hnd as [Hu Hnd].
    apply Forall_cons in Hall as [Hhd Hall].
    case_bool_decide as Heq.
    + subst u. constructor; [by apply same|].
      rewrite Forall_forall in Hall |- *. intros [u' cs'] Hin.
      apply other; [by apply Hall|]. intros ->.
      apply Hu. apply list_elem_of_fmap. by exists (assignedTo c, cs').
    + constructor; [by apply other|].
      apply IH; [done| |done]. intros Hnot. apply Hnew.
      rewrite not_elem_of_cons. done.
Qed.
End push.

Lemma append_chore_keys c g :
  (append_chore g c).*1 =
  g.*1 ++ (if decide (assignedTo c ∈ g.*1) then [] else [assignedTo c]).
Proof.
  induction g as [|[u cs] g IH]; cbn.
  - rewrite decide_False; [done|]. apply not_elem_of_nil.
  - case_bool_decide as Heq; cbn.
    + subst u. rewrite decide_True by left. by rewrite app_nil_r.
    + rewrite IH. f_equal. f_equal.
      destruct (decide (assignedTo c ∈ g.*1)) as [Hin|Hin].
      * rewrite decide_True; [done|by right].
      * rewrite decide_False; [done|]. rewrite not_elem_of_cons. done.
Qed.

Lemma grouped_append d g c :
  grouped d g → grouped (d ++ [c]) (append_chore g c).
Proof.
  intros (Hnd & Hall & Hcov). split; [|split].
  - rewrite append_chore_keys. case_decide; [by rewrite app_nil_r|].
    apply NoDup_app. split; [done|]. split; [|apply NoDup_singleton].
    intros u Hu ->%list_elem_of_singleton. done.
  - eapply append_chore_Forall; [| |done| |exact Hall]; cbn.
    + intros u cs [-> Hne] Hu. by rewrite choresOf_snoc_other.
    + intros cs [-> Hne]. split; [by rewrite choresOf_snoc_same|].
      by destruct (choresOf _ _).
    + intros Hnew. rewrite choresOf_snoc_same by done.
      assert (choresOf (assignedTo c) d = []) as ->; [|done].
      apply choresOf_nil_iff. intros c' Hc' Heq. apply Hnew.
      rewrite <- Heq. by apply Hcov.
  - intros c' Hc'. rewrite append_chore_keys.
    apply elem_of_app in Hc' as [Hc' | ->%list_elem_of_singleton].
    + apply elem_of_app. left. by apply Hcov.
    + case_decide; [by rewrite app_nil_r|].
      apply elem_of_app. right. by left.
Qed.

(** For an assignee that names no member of [Object.prototype] the step
    appends; for one that does, and has no own entry, it throws. *)
Lemma push_chore_plain g c :
  assignedTo c ∉ objectPrototype →
  push_chore g c = Resolved (append_chore g c).
Proof.
  intros H. unfold push_chore. case_bool_decide; [done|].
  by rewrite bool_decide_eq_false_2.
Qed.

Lemma push_chore_inherited g c :
  assignedTo c ∈ objectPrototype →
  Forall (λ k, k ∉ objectPrototype) g.*1 →
  push_chore g c = Rejected NOT_A_FUNCTION.
Proof.
  intros H Hkeys. unfold push_chore.
  rewrite bool_decide_eq_false_2, bool_decide_eq_true_2; [done|done|].
  intros Hin. rewrite Forall_forall in Hkeys. by apply (Hkeys _ Hin).
Qed.

Lemma forEach_plain d : ∀ g,
  plainAssignees d → forEach d g = Resolved (foldl append_chore g d).
Proof.
  induction d as [|c d IH]; intros g Hd; [done|].
  apply Forall_cons in Hd as [Hc Hd]. cbn.
  rewrite push_chore_plain by done. by apply IH.
Qed.

Lemma forEach_inherited d : ∀ g,
  Forall (λ k, k ∉ objectPrototype) g.*1 →
  ¬ plainAssignees d →
  forEach d g = Rejected NOT_A_FUNCTION.
Proof.
  induction d as [|c d IH]; intros g Hkeys Hd.
  - destruct Hd. constructor.
  - cbn. destruct (decide (assignedTo c ∈ objectPrototype)) as [Hc|Hc].
    + by rewrite push_chore_inherited.
    + rewrite push_chore_plain by done. apply IH.
      * rewrite append_chore_keys. apply Forall_app. split; [done|].
        case_decide; [constructor|]. by repeat constructor.
      * intros Hplain. apply Hd. by constructor.
Qed.

Lemma foldl_append_chore_grouped d : grouped d (foldl append_chore [] d).
Proof.
  induction d as [|c d IH] using rev_ind.
  - split; [constructor|]. split; [constructor|]. intros c Hc. inversion Hc.
  - rewrite foldl_app. cbn. by apply grouped_append.
Qed.

Lemma groupByAssignee_plain d :
  plainAssignees d →
  ∃ g, groupByAssignee d = Resolved g ∧ grouped d g.
Proof.
  intros Hd. exists (foldl append_chore [] d).
  split; [by apply forEach_plain|apply foldl_append_chore_grouped].
Qed.

Lemma groupByAssignee_inherited d :
  ¬ plainAssignees d → groupByAssignee d = Rejected NOT_A_FUNCTION.
Proof. intros Hd. apply forEach_inherited; [constructor|done]. Qed.

(** The test of the code on a chore is the test of the specification on its
    status. *)
Lemma isDone_finished (c : Chore) : isDone c = finished (status c).
Proof. unfold isDone. by destruct (status c). Qed.

Lemma earnsBonus_rate (cs : list Chore) :
  earnsBonus (length (List.filter isDone cs)) (length cs) = true
  ↔ (9 # 10 <= completionRate cs)%Q ∧ (3 ≤ length cs)%nat.
Proof.
  unfold earnsBonus, completionRate, Qle. cbn [Qnum Qden].
  rewrite (List.filter_ext isDone (λ c, finished (status c)) isDone_finished).
  rewrite andb_true_iff, Nat.leb_le, Nat.leb_le.
  split; intros [Hrate Hfloor]; (split; [|done]).
  - rewrite <- (positive_nat_Z (Pos.of_nat _)), Nat2Pos.id by lia. lia.
  - rewrite <- (positive_nat_Z (Pos.of_nat _)), Nat2Pos.id in Hrate by lia.
    lia.
Qed.

Lemma qualifies_deservesBonus weekly u :
  qualifies (u, choresOf u weekly) = true ↔ deservesBonus weekly u.
Proof. apply earnsBonus_rate. Qed.

Lemma filter_keys_elem {A} (f : string * A → bool) (l : list (string * A)) u :
  u ∈ (List.filter f l).*1 ↔ ∃ a, (u, a) ∈ l ∧ f (u, a) = true.
Proof.
  rewrite list_elem_of_fmap. split.
  - intros ([u' a] & -> & Hin).
    apply list_elem_of_In, List.filter_In in Hin as [Hin Hf].
    exists a. by rewrite list_elem_of_In.
  - intros (a & Hin & Hf). exists (u, a). split; [done|].
    apply list_elem_of_In, List.filter_In. by rewrite <- list_elem_of_In.
Qed.

Lemma filter_keys_NoDup {A} (f : string * A → bool) (l : list (string * A)) :
  NoDup l.*1 → NoDup (List.filter f l).*1.
Proof.
  induction l as [|[u a] l IH]; [done|]. rewrite fmap_cons. cbn [fst].
  intros [Hfresh Hnd]%NoDup_cons. cbn [List.filter].
  destruct (f (u, a)); [|auto]. rewrite fmap_cons. cbn [fst].
  apply NoDup_cons. split; [|auto].
  rewrite filter_keys_elem. intros (a' & Hin & _). apply Hfresh.
  apply list_elem_of_fmap. by exists (u, a').
Qed.

Lemma grouped_entry d g u cs :
  grouped d g → (u, cs) ∈ g → cs = choresOf u d.
Proof.
  intros (_ & Hall & _) Hin. rewrite Forall_forall in Hall.
  by destruct (Hall _ Hin).
Qed.

Lemma grouped_covers d g u :
  grouped d g → choresOf u d ≠ [] → (u, choresOf u d) ∈ g.
Proof.
  intros Hg Hne.
  assert (∃ c, c ∈ d ∧ assignedTo c = u) as (c & Hc & <-).
  { destruct (choresOf u d) as [|c cs] eqn:Hcs; [done|]. exists c.
    assert (In c (choresOf u d)) as Hin by (rewrite Hcs; by left).
    apply List.filter_In in Hin as [Hin Hu].
    split; [by apply list_elem_of_In|]. by apply bool_decide_eq_true in Hu. }
  destruct Hg as (Hnd & Hall & Hcov).
  apply Hcov, list_elem_of_fmap in Hc as ([u cs] & Hu & Hin).
  cbn in Hu. subst u. rewrite Forall_forall in Hall.
  destruct (Hall _ Hin) as [Hcs _]. cbn in Hcs. by subst cs.
Qed.

Lemma grouped_bonused d g u :
  grouped d g → u ∈ (List.filter qualifies g).*1 ↔ deservesBonus d u.
Proof.
  intros Hg. rewrite filter_keys_elem, <- qualifies_deservesBonus. split.
  - intros (cs & Hin & Hq). by rewrite <- (grouped_entry _ _ _ _ Hg Hin).
  - intros Hq. exists (choresOf u d). split; [|done].
    apply grouped_covers; [done|].
    apply qualifies_deservesBonus in Hq as [_ Hlen].
    intros Hnil. rewrite Hnil in Hlen. cbn in Hlen. lia.
Qed.

(** X18. The grouping loop partitions the week's chores by assignee, unless
    an assignee's id names a member of [Object.prototype]. Without such an
    id the keys are distinct, and the entries are exactly the assignees
    that have a chore, each with all of its chores in their original order.
    With such an id among the assignees the loop throws. *)
Theorem groupByAssignee_partition (weekly : list Chore) :
  (plainAssignees weekly →
   ∃ g, groupByAssignee weekly = Resolved g
     ∧ NoDup g.*1
     ∧ (∀ u cs, (u, cs) ∈ g ↔ cs = choresOf u weekly ∧ cs ≠ [])
     ∧ (∀ c, c ∈ weekly → assignedTo c ∈ g.*1))
  ∧ (¬ plainAssignees weekly → ∃ e, groupByAssignee weekly = Rejected e).
Proof.
  split; [|intros Hinh; eexists; by apply groupByAssignee_inherited].
  intros Hplain.
  destruct (groupByAssignee_plain weekly Hplain) as (g & Hrun & Hg).
  exists g. split; [done|]. split; [apply Hg|]. split; [|apply Hg].
  intros u cs. split.
  - intros Hin. split; [by eapply grouped_entry|].
    destruct Hg as (_ & Hall & _). rewrite Forall_forall in Hall.
    by destruct (Hall _ Hin).
  - intros [-> Hne]. by apply grouped_covers.
Qed.

Lemma sweepDb_plainAssignees : plainAssignees (chores sweepDb).
Proof.
  repeat (apply Forall_cons; split;
          [by apply (bool_decide_eq_false_1 (_ ∈ _))|]).
  apply Forall_nil_2.
Defined.

Lemma groupByAssignee_partition_witness :
  (∃ g, groupByAssignee (chores sweepDb) = Resolved g
        ∧ g.*1 = ["U"%string; "V"%string; "W"%string])
  ∧ ∃ e, groupByAssignee (chores prototypeDb) = Rejected e.
Proof.
  destruct (groupByAssignee_partition (chores sweepDb)) as [H _].
  destruct (groupByAssignee_partition (chores prototypeDb)) as [_ H'].
  split.
  - destruct (H sweepDb_plainAssignees) as (g & Hg & _).
    exists g. split; [exact Hg|].
    injection Hg as <-. reflexivity.
  - apply H'. intros Hplain.
    apply Forall_app in Hplain as [_ Hc].
    apply Forall_cons in Hc as [Hc _]. apply Hc.
    by apply (bool_decide_eq_true_1 (_ ∈ _)).
Defined.

(** X19. The test of the sweep, for [completed] chores done out of [total]:
    with fewer than three chores there is no bonus; with three to nine
    chores every one of them must be done; in general at most a tenth of
    the chores may be left undone. *)
Theorem earnsBonus_allowance (completedCount total : nat) :
  (completedCount ≤ total)%nat →
  (earnsBonus completedCount total = true
   ↔ (3 ≤ total ∧ 10 * (total - completedCount) ≤ total)%nat)
  ∧ ((total < 3)%nat → earnsBonus completedCount total = false)
  ∧ ((3 ≤ total ≤ 9)%nat →
     (earnsBonus completedCount total = true ↔ completedCount = total)).
Proof.
  intros Hle. unfold earnsBonus.
  rewrite andb_true_iff, !Nat.leb_le. split; [lia|]. split.
  - intros Hlt. apply andb_false_iff. right. apply Nat.leb_gt. lia.
  - lia.
Qed.

Lemma earnsBonus_allowance_witness :
  earnsBonus 9 10 = true ∧ earnsBonus 8 9 = false.
Proof.
  split.
  - apply (proj1 (earnsBonus_allowance 9 10 ltac:(lia))). lia.
  - destruct (earnsBonus 8 9) eqn:E; [|done].
    apply (proj2 (proj2 (earnsBonus_allowance 8 9 ltac:(lia)))) in E; lia.
Defined.

Section sweep.
Variables weekStart weekEnd : Z.
Variable roundPercent : nat → nat → string.

(** The loop over the entries counts those that pass the test; its ledger
    calls write nothing. *)
Lemma bonus_loop_counts roomId entries : ∀ k db,
  bonus_loop roundPercent roomId entries k db
  = (db, Resolved (k + length (List.filter qualifies entries))%nat).
Proof.
  induction entries as [|[uid cs] entries IH]; intros k db.
  - cbn. by rewrite Nat.add_0_r.
  - cbn [bonus_loop List.filter].
    change (earnsBonus (length (List.filter isDone cs)) (length cs))
      with (qualifies (uid, cs)).
    destruct (qualifies (uid, cs)).
    + unfold mbind, Async_bind. rewrite adjustTrustScore_inert, IH.
      do 2 f_equal. cbn [length]. lia.
    + apply IH.
Qed.


(** X20. What the sweep returns, and that it writes nothing. The backend
    is left exactly as it was in every case. When the week's chores are
    fetched and no assignee's id names a member of [Object.prototype], the
    sweep reports a success and the number of assignees whose completion
    rate over the week is at least 0.9 with at least three chores, each
    counted once. When an assignee's id names such a member, the sweep
    reports the failure of the grouping loop. When the fetch fails with an
    error message that is not empty, it reports that error. *)
Theorem calculateWeeklyTrustBonus_outcome roomId db :
  let weekly := weekChores weekStart weekEnd roomId db in
  let '(db', r) :=
    calculateWeeklyTrustBonus weekStart weekEnd roundPercent roomId db in
  db' = db
  ∧ (outage db = None → plainAssignees weekly →
     ∃ bonused,
       NoDup bonused
       ∧ (∀ u, u ∈ bonused ↔ deservesBonus weekly u)
       ∧ r = Resolved {| success := true; newScore := None;
                         bonusesApplied := Some (length bonused);
                         error := None |})
  ∧ (outage db = None → ¬ plainAssignees weekly →
     ∃ e, r = Resolved {| success := false; newScore := None;
                          bonusesApplied := None; error := Some e |})
  ∧ (∀ e, outage db = Some e → e ≠ ""%string →
       r = Resolved {| success := false; newScore := None;
                       bonusesApplied := None; error := Some e |}).
Proof.
  intros weekly.
  unfold calculateWeeklyTrustBonus, getDocuments, getDocs, try_catch,
    mbind, mret, Async_bind, Async_ret.
  fold (weekChores weekStart weekEnd roomId db). fold weekly.
  destruct (outage db) as [e|] eqn:Hout.
  - cbn [firebase.error firebase.data].
    destruct e as [|a e]; cbn;
      (split; [done|]); (split; [done|]); (split; [done|]).
    + intros e' [= <-] Hne. done.
    + intros e' [= <-] _. done.
  - cbn [firebase.error firebase.data truthy_message].
    destruct (decide (plainAssignees weekly)) as [Hplain|Hplain].
    + destruct (groupByAssignee_plain weekly Hplain) as (g & -> & Hg).
      rewrite bonus_loop_counts. split; [done|].
      split; [|split; [done|done]]. intros _ _.
      exists (List.filter qualifies g).*1.
      split; [apply filter_keys_NoDup, Hg|].
      split; [intros u; by apply grouped_bonused|].
      by rewrite length_fmap.
    + rewrite (groupByAssignee_inherited weekly Hplain).
      split; [done|]. split; [done|]. split; [by eexists|done].
Qed.
End sweep.

Lemma calculateWeeklyTrustBonus_outcome_witness :
  calculateWeeklyTrustBonus 0 7 (λ _ _, "100"%string) "room"
    (unreachable sweepDb)
  = (unreachable sweepDb,
     Resolved {| success := false; newScore := None; bonusesApplied := None;
                 error := Some "unavailable"%string |})
  ∧ ∃ bonused,
      (∀ u, u ∈ bonused ↔ deservesBonus (weekChores 0 7 "room" sweepDb) u)
      ∧ snd (calculateWeeklyTrustBonus 0 7 (λ _ _, "100"%string) "room"
               sweepDb)
        = Resolved {| success := true; newScore := None;
                      bonusesApplied := Some (length bonused);
                      error := None |}.
Proof.
  split.
  - pose proof (calculateWeeklyTrustBonus_outcome 0 7 (λ _ _, "100"%string)
                  "room" (unreachable sweepDb)) as H.
    cbv zeta in H.
    destruct (calculateWeeklyTrustBonus 0 7 _ "room" (unreachable sweepDb))
      as [db' r].
    destruct H as (-> & _ & _ & H).
    by rewrite (H "unavailable"%string eq_refl ltac:(discriminate)).
  - pose proof (calculateWeeklyTrustBonus_outcome 0 7 (λ _ _, "100"%string)
                  "room" sweepDb) as H.
    cbv zeta in H.
    destruct (calculateWeeklyTrustBonus 0 7 _ "room" sweepDb) as [db' r].
    destruct H as (_ & H & _).
    destruct (H eq_refl sweepDb_plainAssignees) as (bonused & _ & Hiff & Hr).
    exists bonused. split; [exact Hiff|exact Hr].
Defined.

(** C8. The sweep does not apply the bonuses it counts. In the week in
    which U has done three chores out of three (one of them confirmed), V
    two out of three (one is still pending) and W two out of two, only U
    reaches a rate of 0.9 over at least three chores. The sweep reports one
    bonus applied, and the backend is exactly as it was: the score of U is
    still 100 and the audit log is empty. An unreachable backend aborts the
    sweep with the error. *)
Theorem calculateWeeklyTrustBonus_applies_nothing :
  let weekly := weekChores 0 7 "room" sweepDb in
  let '(db', r) :=
    calculateWeeklyTrustBonus 0 7 (λ _ _, "100"%string) "room" sweepDb in
  deservesBonus weekly "U" ∧ ¬ deservesBonus weekly "V"
  ∧ ¬ deservesBonus weekly "W"
  ∧ r = Resolved {| success := true; newScore := None;
                    bonusesApplied := Some 1%nat; error := None |}
  ∧ db' = sweepDb
  ∧ trustScore <$> users db' !! "U"%string = Some (Some (Int 100))
  ∧ trustActions db' = []
  ∧ calculateWeeklyTrustBonus 0 7 (λ _ _, "100"%string) "room"
      (unreachable sweepDb)
    = (unreachable sweepDb,
       Resolved {| success := false; newScore := None;
                   bonusesApplied := None;
                   error := Some "unavailable"%string |}).
Proof.
  cbv zeta.
  split; [apply qualifies_deservesBonus; reflexivity|].
  split; [rewrite <- qualifies_deservesBonus; by cbv|].
  split; [rewrite <- qualifies_deservesBonus; by cbv|].
  repeat split; reflexivity.
Qed.

(** C3. The handlers do not report a failed ledger call. In a room in which
    both the completer C and the disputer D have a user document, the
    ledger's transaction fails; a valid dispute and an invalid one both
    resolve with [success: true] and no error, and nobody's score has
    changed; the sweep reports one bonus applied, for C, which was never
    written. *)
Theorem handlers_swallow_ledger_failure :
  (∃ e, snd (runFirestoreTransaction
               (adjustTrustScore_transaction "C" "room" false_completion
                  "False completion disputed: Dishes" (Some "chore1"%string)
                  (Some "D"%string) (-10)) roomDb)
        = Resolved {| firebase.data := None; firebase.error := Some e |}
        ∧ e ≠ ""%string)
  ∧ handleChoreDispute disputedChore "D" true "upheld" roomDb
    = (roomDb,
       Resolved {| success := true; newScore := None;
                   bonusesApplied := None; error := None |})
  ∧ handleChoreDispute disputedChore "D" false "rejected" roomDb
    = (roomDb,
       Resolved {| success := true; newScore := None;
                   bonusesApplied := None; error := None |})
  ∧ trustScore <$> users roomDb !! "C"%string = Some (Some (Int 100))
  ∧ calculateWeeklyTrustBonus 0 7 (λ _ _, "100"%string) "room" roomDb
    = (roomDb,
       Resolved {| success := true; newScore := None;
                   bonusesApplied := Some 1%nat; error := None |}).
Proof.
  split; [eexists; split; [reflexivity|done]|].
  repeat split; reflexivity.
Qed.

(** ** The bounds as an invariant *)





(** ** Trust history *)

Section history_props.
Variable orderByCreatedAtDesc : list TrustAction → list TrustAction.
Hypothesis orderBy_perm : ∀ l, orderByCreatedAtDesc l ≡ₚ l.

(** X21. The history of a user is read-only and never rejects; it holds
    only audit documents of that user taken from the log; with a reachable
    backend it holds [limit] of them (50 when no limit is given) or all of
    them if there are fewer, and a limit of 0 means no limit at all; with
    an unreachable backend it is empty. *)
Theorem getTrustHistory_bounded db uid limit :
  let lim := default 50%nat limit in
  let '(db', o) :=
    history.getTrustHistory orderByCreatedAtDesc uid limit db in
  db' = db
  ∧ ∃ r, o = Resolved r
    ∧ (∀ a, a ∈ history.actions r → userId a = uid ∧ a ∈ trustActions db)
    ∧ (outage db = None →
       history.error r = None
       ∧ length (history.actions r)
         = if bool_decide (lim = 0%nat) then length (auditOf uid db)
           else (lim `min` length (auditOf uid db))%nat)
    ∧ (is_Some (outage db) → history.actions r = []).
Proof.
  intros lim. unfold history.getTrustHistory, history.getDocuments,
    history.getDocs, try_catch, mbind, mret, Async_bind, Async_ret.
  fold lim. destruct (outage db) as [e|] eqn:Hout.
  - cbn. destruct e as [|a e]; cbn; (split; [done|]); eexists;
      (split; [reflexivity|]); cbn;
      (split; [intros ? []%elem_of_nil|]); split; done.
  - fold (auditOf uid db).
    assert (Hmem : ∀ a, a ∈ orderByCreatedAtDesc (auditOf uid db) →
                        userId a = uid ∧ a ∈ trustActions db).
    { intros a Ha. rewrite orderBy_perm in Ha.
      apply list_elem_of_In, List.filter_In in Ha as [Hin Hu].
      split; [by apply bool_decide_eq_true in Hu|by apply list_elem_of_In]. }
    assert (Hlen : length (orderByCreatedAtDesc (auditOf uid db))
                   = length (auditOf uid db)) by by rewrite orderBy_perm.
    destruct lim as [|n]; cbn; (split; [done|]); eexists;
      (split; [reflexivity|]); cbn.
    + split; [done|]. split; [done|]. by intros [? ?].
    + split; [|split; [|by intros [? ?]]].
      * intros a Ha. apply Hmem. by eapply subseteq_take.
      * intros _. split; [done|]. rewrite length_take, Hlen. done.
Qed.
End history_props.

Lemma newestFirst_perm l : newestFirst l ≡ₚ l.
Proof. apply merge_sort_Permutation. Defined.

Lemma getTrustHistory_bounded_witness :
  let db :=
    fst (resetTrustScore "U" "room" (Some (Int 90)) None "admin"
           (fst (resetTrustScore "U" "room" (Some (Int 120)) None "admin"
                   sweepDb))) in
  length
    (match snd (history.getTrustHistory newestFirst "U" (Some 1%nat) db) with
     | Resolved r => history.actions r
     | Rejected _ => []
     end) = 1%nat
  ∧ length
      (match snd (history.getTrustHistory newestFirst "U" (Some 0%nat) db)
       with
       | Resolved r => history.actions r
       | Rejected _ => []
       end) = 2%nat.
Proof.
  intros db.
  pose proof (getTrustHistory_bounded newestFirst newestFirst_perm db "U"
                (Some 1%nat)) as H1.
  pose proof (getTrustHistory_bounded newestFirst newestFirst_perm db "U"
                (Some 0%nat)) as H0.
  cbv zeta in H1, H0.
  destruct (history.getTrustHistory newestFirst "U" (Some 1%nat) db)
    as [db1 o1].
  destruct (history.getTrustHistory newestFirst "U" (Some 0%nat) db)
    as [db0 o0].
  destruct H1 as (_ & r1 & -> & _ & H1 & _).
  destruct H0 as (_ & r0 & -> & _ & H0 & _).
  cbn [snd]. split.
  - rewrite (proj2 (H1 eq_refl)). reflexivity.
  - rewrite (proj2 (H0 eq_refl)). reflexivity.
Defined.

(** ** The firebase helpers *)

(** X22. The helpers of the firebase module never reject: a failure of the
    SDK call comes back as the [error] of a resolved result. Whenever that
    [error] is set the store is as it was before, also for a transaction
    whose callback had already written; a query never changes the store. *)
Theorem firebase_helpers_never_reject db :
  (∀ uid rid act pts rsn by_,
     let '(db', o) := createDocument uid rid act pts rsn by_ db in
     ∃ r, o = Resolved r ∧ (firebase.error r ≠ None → db' = db))
  ∧ (∀ docId score,
       let '(db', o) := updateDocument docId score db in
       ∃ r, o = Resolved r ∧ (firebase.error r ≠ None → db' = db))
  ∧ (∀ conditions,
       let '(db', o) := getDocuments conditions db in
       ∃ r, o = Resolved r ∧ db' = db
            ∧ (firebase.error r ≠ None → firebase.data r = []))
  ∧ (∀ (callback : Async Z),
       let '(db', o) := runFirestoreTransaction callback db in
       ∃ r, o = Resolved r
            ∧ (firebase.error r ≠ None
               → db' = db ∧ firebase.data r = None)).
Proof.
  split; [|split; [|split]]; intros; run_async.
  - destruct (outage db); cbn; eexists; (split; [reflexivity|]); done.
  - destruct (outage db); cbn; [eexists; (split; [reflexivity|]); done|].
    destruct (users db !! docId); cbn; eexists;
      (split; [reflexivity|]); done.
  - destruct (outage db); cbn; eexists; (split; [reflexivity|]); done.
  - destruct (callback db) as [db1 [a|m]]; cbn;
      [destruct (outage db); cbn|]; eexists;
      (split; [reflexivity|]); done.
Qed.

(** ** Payments: M-Pesa formatting *)

Section payments_format.
Import payments.

Lemma removeNonDigits_allDigits s :
  allDigits (removeNonDigits s) = true.
Proof.
  induction s as [|c s IH]; [done|]. cbn.
  destruct (isDigit c) eqn:Hc; [|done]. cbn. by rewrite Hc.
Qed.

Lemma removeNonDigits_id s : allDigits s = true → removeNonDigits s = s.
Proof.
  induction s as [|c s IH]; [done|]. cbn.
  intros [Hc Hs]%andb_true_iff. rewrite Hc. by rewrite IH.
Qed.

Lemma startsWith_254_inv s :
  startsWith s "254" = true → ∃ x, s = ("254" +:+ x)%string.
Proof.
  unfold startsWith. intros H.
  destruct s as [|a s]; [discriminate|]. cbn [String.prefix] in H.
  match type of H with
  | context [Ascii.ascii_dec ?x ?y] =>
      destruct (Ascii.ascii_dec x y) as [<-|]; [|discriminate]
  end.
  destruct s as [|b s]; [discriminate|]. cbn [String.prefix] in H.
  match type of H with
  | context [Ascii.ascii_dec ?x ?y] =>
      destruct (Ascii.ascii_dec x y) as [<-|]; [|discriminate]
  end.
  destruct s as [|c s]; [discriminate|]. cbn [String.prefix] in H.
  match type of H with
  | context [Ascii.ascii_dec ?x ?y] =>
      destruct (Ascii.ascii_dec x y) as [<-|]; [|discriminate]
  end.
  by exists s.
Qed.

Lemma formatMpesaPhone_254 x :
  allDigits x = true →
  formatMpesaPhone ("254" +:+ x) = ("254" +:+ x)%string.
Proof.
  intros Hx. unfold formatMpesaPhone.
  change (removeNonDigits ("254" +:+ x))
    with ("254" +:+ removeNonDigits x)%string.
  rewrite removeNonDigits_id by done. clear Hx. destruct x; reflexivity.
Qed.

Lemma formatMpesaPhone_shape phone :
  ∃ x, allDigits x = true
       ∧ formatMpesaPhone phone = ("254" +:+ x)%string.
Proof.
  unfold formatMpesaPhone.
  pose proof (removeNonDigits_allDigits phone) as Hc.
  destruct (removeNonDigits phone) as [|a rest] eqn:Hclean.
  { exists ""%string. split; reflexivity. }
  destruct (startsWith (String a rest) "0") eqn:H0.
  { exists rest. split; [|reflexivity].
    cbn [allDigits] in Hc. by apply andb_true_iff in Hc as [_ Hc]. }
  destruct (startsWith (String a rest) "7" || startsWith (String a rest) "1").
  { by exists (String a rest). }
  destruct (startsWith (String a rest) "254") eqn:H254; cbn [negb].
  - destruct (startsWith_254_inv _ H254) as [x Hx]. exists x.
    split; [|done]. rewrite Hx in Hc. exact Hc.
  - by exists (String a rest).
Qed.

(** X23. Whatever it is given, [formatMpesaPhone] returns a string of
    digits that starts with 254, and formatting its result again changes
    nothing; punctuation and spaces in the input are ignored. *)
Theorem formatMpesaPhone_normal_form (phone : string) :
  let r := formatMpesaPhone phone in
  startsWith r "254" = true
  ∧ allDigits r = true
  ∧ formatMpesaPhone r = r
  ∧ formatMpesaPhone (removeNonDigits phone) = r.
Proof.
  intros r. subst r.
  assert (Hsame : formatMpesaPhone (removeNonDigits phone)
                  = formatMpesaPhone phone).
  { unfold formatMpesaPhone.
    by rewrite (removeNonDigits_id _ (removeNonDigits_allDigits phone)). }
  rewrite Hsame.
  destruct (formatMpesaPhone_shape phone) as (x & Hx & ->).
  split; [by destruct x|]. split; [exact Hx|].
  split; [by apply formatMpesaPhone_254|reflexivity].
Qed.

(** X24. The usual spellings of one number agree: for a subscriber number
    of digits that starts neither with 0 nor with 254, the local form with
    a leading 0, the bare form, and the international form with or without
    [+] all give 254 followed by the subscriber number. *)
Theorem formatMpesaPhone_spellings (n : string) :
  allDigits n = true →
  startsWith n "0" = false →
  startsWith n "254" = false →
  formatMpesaPhone ("0" +:+ n) = ("254" +:+ n)%string
  ∧ formatMpesaPhone n = ("254" +:+ n)%string
  ∧ formatMpesaPhone ("254" +:+ n) = ("254" +:+ n)%string
  ∧ formatMpesaPhone ("+254" +:+ n) = ("254" +:+ n)%string
  ∧ formatMpesaPhone ("+254 " +:+ n) = ("254" +:+ n)%string.
Proof.
  intros Hn H0 H254.
  assert (Hbare : formatMpesaPhone n = ("254" +:+ n)%string).
  { unfold formatMpesaPhone. rewrite removeNonDigits_id, H0, H254 by done.
    cbn [negb]. by destruct (_ || _). }
  split; [|split; [|split; [|split]]].
  - unfold formatMpesaPhone.
    change (removeNonDigits ("0" +:+ n))
      with ("0" +:+ removeNonDigits n)%string.
    rewrite removeNonDigits_id by done. clear. destruct n; reflexivity.
  - exact Hbare.
  - by apply formatMpesaPhone_254.
  - transitivity (formatMpesaPhone ("254" +:+ n));
      [reflexivity|by apply formatMpesaPhone_254].
  - transitivity (formatMpesaPhone ("254" +:+ n));
      [reflexivity|by apply formatMpesaPhone_254].
Qed.

Lemma formatMpesaPhone_spellings_witness :
  formatMpesaPhone "0712345678" = "254712345678"%string
  ∧ formatMpesaPhone "+254 712345678" = "254712345678"%string.
Proof.
  destruct (formatMpesaPhone_spellings "712345678" eq_refl eq_refl eq_refl)
    as (H1 & _ & _ & _ & H5).
  split; [exact H1|exact H5].
Defined.

End payments_format.

Section payments_timestamp.
Import payments.

Lemma allDigits_app s t : allDigits (s +:+ t) = allDigits s && allDigits t.
Proof.
  induction s as [|c s IH]; [done|].
  change (String c s +:+ t)%string with (String c (s +:+ t)). cbn.
  by rewrite IH, andb_assoc.
Qed.

Lemma length_app s t :
  String.length (s +:+ t) = (String.length s + String.length t)%nat.
Proof.
  induction s as [|c s IH]; [done|].
  change (String c s +:+ t)%string with (String c (s +:+ t)). cbn.
  by rewrite IH.
Qed.

Lemma below_checked (check : nat → bool) (lo len : nat) :
  forallb check (seq lo len) = true →
  ∀ n, (lo ≤ n < lo + len)%nat → check n = true.
Proof.
  intros Hall n Hn. rewrite forallb_forall in Hall.
  apply Hall, in_seq. lia.
Qed.

Lemma padStart2_two_digits n :
  (n < 100)%nat →
  String.length (padStart2 (toString n)) = 2%nat
  ∧ allDigits (padStart2 (toString n)) = true.
Proof.
  intros Hn.
  pose proof (below_checked
    (λ n, (String.length (padStart2 (toString n)) =? 2)%nat
          && allDigits (padStart2 (toString n))) 0 100) as H.
  cbv beta in H. specialize (H ltac:(vm_compute; reflexivity) n ltac:(lia)).
  apply andb_true_iff in H as [Hlen Hdig]. by apply Nat.eqb_eq in Hlen.
Qed.

Lemma pretty_N_char_digit x : isDigit (pretty_N_char x) = true.
Proof. unfold pretty_N_char. repeat case_match; reflexivity. Qed.

Lemma div10_bounds (a lo hi : N) :
  (10 * lo ≤ a < 10 * hi)%N → (lo ≤ a `div` 10 < hi)%N.
Proof.
  intros [Hlo Hhi]. split.
  - by apply N.div_le_lower_bound.
  - by apply N.Div0.div_lt_upper_bound.
Qed.

Lemma toString_four_digits n :
  1000 ≤ Z.of_nat n ≤ 9999 →
  String.length (toString n) = 4%nat ∧ allDigits (toString n) = true.
Proof.
  intros Hn. unfold toString, pretty, pretty_nat, pretty, pretty_N.
  assert (Hx : (10 * 100 ≤ N.of_nat n < 10 * 1000)%N) by lia.
  revert Hx. generalize (N.of_nat n). clear n Hn. intros x Hx.
  rewrite decide_False by lia.
  apply div10_bounds in Hx as H1. rewrite pretty_N_go_step by lia.
  apply (div10_bounds _ 10 100) in H1 as H2.
  rewrite pretty_N_go_step by lia.
  apply (div10_bounds _ 1 10) in H2 as H3.
  rewrite pretty_N_go_step by lia.
  rewrite pretty_N_go_step by lia.
  rewrite (N.div_small (((x `div` 10) `div` 10) `div` 10)) by lia.
  rewrite pretty_N_go_0. cbn [String.length allDigits].
  by rewrite !pretty_N_char_digit.
Qed.

(** X25. For a local time with a four-digit year the M-Pesa timestamp is
    fourteen digits: the year followed by month, day, hours, minutes and
    seconds, each padded to two digits. *)
Theorem getMpesaTimestamp_fourteen_digits (now : LocalTime) :
  1000 ≤ Z.of_nat (fullYear now) ≤ 9999 →
  (month now ≤ 11)%nat →
  (1 ≤ date now ≤ 31)%nat →
  (hours now ≤ 23)%nat →
  (minutes now ≤ 59)%nat →
  (seconds now ≤ 59)%nat →
  String.length (getMpesaTimestamp now) = 14%nat
  ∧ allDigits (getMpesaTimestamp now) = true.
Proof.
  intros Hy Hmo Hd Hh Hmi Hs. unfold getMpesaTimestamp.
  destruct (toString_four_digits (fullYear now) Hy) as [Ly Dy].
  destruct (padStart2_two_digits (month now + 1) ltac:(lia)) as [Lmo Dmo].
  destruct (padStart2_two_digits (date now) ltac:(lia)) as [Ld Dd].
  destruct (padStart2_two_digits (hours now) ltac:(lia)) as [Lh Dh].
  destruct (padStart2_two_digits (minutes now) ltac:(lia)) as [Lmi Dmi].
  destruct (padStart2_two_digits (seconds now) ltac:(lia)) as [Ls Ds].
  rewrite !length_app, !allDigits_app, Ly, Lmo, Ld, Lh, Lmi, Ls,
    Dy, Dmo, Dd, Dh, Dmi, Ds.
  done.
Qed.

Lemma getMpesaTimestamp_fourteen_digits_witness :
  String.length
    (getMpesaTimestamp {| fullYear := 2024; month := 2; date := 7;
                          hours := 9; minutes := 5; seconds := 0 |})
  = 14%nat
  ∧ getMpesaTimestamp {| fullYear := 2024; month := 2; date := 7;
                         hours := 9; minutes := 5; seconds := 0 |}
    = "20240307090500"%string.
Proof.
  split; [|reflexivity].
  apply (getMpesaTimestamp_fourteen_digits
           {| fullYear := 2024; month := 2; date := 7; hours := 9;
              minutes := 5; seconds := 0 |}); cbn; lia.
Defined.

(** X26. An amount passes validation exactly when it lies between the
    minimum and the maximum of the method, both included; [NaN] passes for
    every method, the infinities never do. A result is valid exactly when
    it carries no error, and the error is never "Invalid payment method". *)
Theorem validatePaymentAmount_range (method : PaymentMethod) (a : Amount) :
  let r := validatePaymentAmount method a in
  let info := PAYMENT_METHODS method in
  (valid r = true
   ↔ match a with
     | Finite q =>
         (inject_Z (minAmount info) <= q)%Q
         ∧ (q <= inject_Z (maxAmount info))%Q
     | NaN => True
     | PosInfinity | NegInfinity => False
     end)
  ∧ (valid r = true ↔ payments.error r = None)
  ∧ payments.error r ≠ Some "Invalid payment method"%string
  ∧ minAmount info ≤ maxAmount info.
Proof.
  intros r info. subst r. unfold validatePaymentAmount, getPaymentMethodInfo.
  fold info. destruct a as [q| | |]; cbn [lessThan greaterThan].
  - destruct (Qle_bool (inject_Z (minAmount info)) q) eqn:Hmin; cbn [negb].
    + destruct (Qle_bool q (inject_Z (maxAmount info))) eqn:Hmax; cbn [negb].
      * apply Qle_bool_iff in Hmin, Hmax. cbn.
        repeat split; try done. by destruct method.
      * assert (¬ (q <= inject_Z (maxAmount info))%Q) as Hn.
        { rewrite <- Qle_bool_iff. by rewrite Hmax. }
        cbn. repeat split; try done; try (by intros [_ ?]).
        all: by destruct method.
    + assert (¬ (inject_Z (minAmount info) <= q)%Q) as Hn.
      { rewrite <- Qle_bool_iff. by rewrite Hmin. }
      cbn. repeat split; try done; try (by intros [? _]).
      all: by destruct method.
  - cbn. repeat split; try done. by destruct method.
  - cbn. repeat split; try done. all: by destruct method.
  - cbn. repeat split; try done. all: by destruct method.
Qed.

End payments_timestamp.

(** ** Payments: processing *)

Section payments_flow.
Import payments.
Variable newId : gmap string Payment → string.
Variable accessToken : Outcome (option string).
Variable stkPush : StkPushRequest → Outcome StkPushResponse.

Ltac run_task :=
  unfold processPayment, processStripePayment, processPayPalPayment,
    confirmPayment, cancelPayment, initiateMpesaPayment, getMpesaToken,
    fetchStkPush, createDocument, updateDocument, addDoc, updateDoc, attempt,
    now, failure, mbind, mret, Task_bind, Task_ret;
  cbn [payments.payments payments.clock payments.outage fst snd].

(** X27. An M-Pesa payment without a phone number is refused, but only
    after its payment document has been created: the call reports "Phone
    number required for M-Pesa" and leaves a pending payment behind. *)
Theorem processPayment_mpesa_without_phone w bill user amt pd :
  payments.outage w = None →
  nonEmpty (phoneNumber pd) = None →
  processPayment newId accessToken stkPush bill user amt mpesa pd w
  = ({| payments.payments :=
          <[newId (payments.payments w) :=
              pendingPayment bill user amt mpesa (payments.clock w)]>
            (payments.payments w);
        payments.clock := payments.clock w;
        payments.outage := payments.outage w |},
     Resolved (failure (Some "Phone number required for M-Pesa"%string))).
Proof.
  intros Hout Hphone. run_task. rewrite Hout. cbn. rewrite Hphone. done.
Qed.

(** X28. Cash, card and PayPal payments are settled on the spot, for any
    amount and without any call to a gateway: the new payment document is
    stored as completed, confirmed at the current time, with a transaction
    id made of the method's prefix and the time; the other payment
    documents are untouched. *)
Theorem processPayment_settled_at_once w bill user amt via pd :
  payments.outage w = None →
  via = cash ∨ via = card ∨ via = paypal →
  let id := newId (payments.payments w) in
  let '(w', o) :=
    processPayment newId accessToken stkPush bill user amt via pd w in
  o = Resolved {| payments.success := true; paymentId := Some id;
                  checkoutRequestId := None; result_error := None |}
  ∧ (∃ p, payments.payments w' !! id = Some p
          ∧ payments.status p = completed
          ∧ payments.amount p = amt
          ∧ payments.confirmedAt p = Some (payments.clock w)
          ∧ payments.transactionId p
            = Some (settledPrefix via +:+ pretty (payments.clock w)))
  ∧ ∀ j, j ≠ id → payments.payments w' !! j = payments.payments w !! j.
Proof.
  intros Hout Hvia id.
  destruct Hvia as [-> | [-> | ->]]; run_task; rewrite Hout; cbn;
    rewrite ?Hout; cbn; rewrite lookup_insert_eq; cbn;
    (split; [done|]); (split; [eexists; rewrite lookup_insert_eq; done|]);
    intros j Hj; by rewrite !lookup_insert_ne.
Qed.

(** X29. An M-Pesa payment with a phone number succeeds exactly when a
    token was obtained and the gateway answered the request, made for the
    formatted phone number and the rounded amount, with response code "0";
    the payment document then stays pending, and is marked failed
    otherwise. *)
Theorem processPayment_mpesa_outcome w bill user amt pd phone :
  payments.outage w = None →
  nonEmpty (phoneNumber pd) = Some phone →
  let id := newId (payments.payments w) in
  let request :=
    {| TransactionType := "CustomerPayBillOnline";
       Amount_ := mathRound amt; PartyA := formatMpesaPhone phone;
       PhoneNumber := formatMpesaPhone phone; AccountReference := bill;
       TransactionDesc := "Bill payment - " +:+ bill |} in
  let '(w', o) :=
    processPayment newId accessToken stkPush bill user amt mpesa pd w in
  ∃ r, o = Resolved r
    ∧ (payments.success r = true
       ↔ (∃ token, accessToken = Resolved (Some token) ∧ token ≠ ""%string)
         ∧ ∃ reply, stkPush request = Resolved reply
                    ∧ ResponseCode reply = Some "0"%string)
    ∧ payments.status <$> payments.payments w' !! id
      = Some (if payments.success r then pending else failed)
    ∧ (payments.success r = true → paymentId r = Some id).
Proof.
  intros Hout Hphone id request. run_task. rewrite Hout. cbn.
  rewrite Hphone. fold request. fold id.
  destruct accessToken as [[[|a token]|]|m]; cbn; rewrite ?Hout; cbn;
    rewrite ?lookup_insert_eq; cbn.
  1,3,4: eexists; (split; [reflexivity|]); cbn;
    rewrite lookup_insert_eq; cbn; (split; [|split; [done|done]]);
    (split; [done|]); intros [(t & Ht & Hne) _]; congruence.
  destruct (stkPush request) as [reply|m] eqn:Hpush; cbn; rewrite ?Hout; cbn.
  - case_bool_decide as Hcode;
      [destruct (CheckoutRequestID reply) as [checkout|]|];
      cbn; rewrite ?Hout; cbn;
      rewrite ?lookup_insert_eq; cbn; eexists; (split; [reflexivity|]); cbn;
      rewrite ?lookup_insert_eq; cbn.
    + split; [|done]. split; [|done]. intros _. split; [by eexists|].
      by exists reply.
    + split; [|done]. split; [|done]. intros _. split; [by eexists|].
      by exists reply.
    + split; [|done]. split; [done|].
      intros [_ (reply' & [= <-] & Hc)]. done.
  - rewrite ?lookup_insert_eq. cbn. eexists. split; [reflexivity|]. cbn.
    rewrite lookup_insert_eq. cbn. split; [|done]. split; [done|].
    intros [_ (reply' & ? & _)]. done.
Qed.

(** X30. Confirming overwrites the status of an existing payment whatever
    it was, and so does cancelling with a reason: a confirmed payment is
    completed, a cancelled one is cancelled even if it had been completed;
    amount, bill and payer stay. Cancelling without a reason fails: the
    update carries an undefined [cancelReason], the call reports the
    failure and the payment stays as it was. For a payment that does not
    exist both calls report a failure and change nothing. *)
Theorem confirm_cancel_overwrite w id by_ tx why :
  payments.outage w = None →
  (∀ p, payments.payments w !! id = Some p →
     (let '(w', o) :=
        confirmPayment id by_ tx w in
      o = Resolved {| payments.success := true; paymentId := None;
                      checkoutRequestId := None; result_error := None |}
      ∧ ∃ p', payments.payments w' !! id = Some p'
          ∧ payments.status p' = completed
          ∧ payments.amount p' = payments.amount p
          ∧ payments.billId p' = payments.billId p
          ∧ payments.userId p' = payments.userId p)
     ∧ (let '(w', o) := cancelPayment id (Some why) w in
        o = Resolved {| payments.success := true; paymentId := None;
                        checkoutRequestId := None; result_error := None |}
        ∧ ∃ p', payments.payments w' !! id = Some p'
            ∧ payments.status p' = cancelled
            ∧ payments.cancelReason p' = Some why
            ∧ payments.amount p' = payments.amount p
            ∧ payments.confirmedAt p' = payments.confirmedAt p))
  ∧ (∃ e, cancelPayment id None w = (w, Resolved (failure (Some e)))
          ∧ e ≠ ""%string)
  ∧ (payments.payments w !! id = None →
     (∃ r, confirmPayment id by_ tx w = (w, Resolved r)
           ∧ payments.success r = false ∧ is_Some (result_error r))
     ∧ (∃ r, cancelPayment id (Some why) w = (w, Resolved r)
             ∧ payments.success r = false ∧ is_Some (result_error r))).
Proof.
  intros Hout. split; [|split].
  - intros p Hp. split; run_task; cbn; rewrite Hout, Hp; cbn;
      (split; [done|]); eexists; (split; [apply lookup_insert_eq|]).
    + by destruct (nonEmpty tx).
    + done.
  - run_task. by eexists.
  - intros Hnone. split; run_task; cbn; rewrite Hout, Hnone; cbn;
      eexists; (split; [reflexivity|]); cbn; eauto.
Qed.
End payments_flow.

Section payments_scenarios.
Import payments.

Lemma processPayment_mpesa_without_phone_witness :
  let '(w', o) :=
    processPayment demoId demoToken demoGateway "bill2" "U" (Finite 250)
      mpesa noPhone paidWorld in
  o = Resolved (failure (Some "Phone number required for M-Pesa"%string))
  ∧ payments.status <$> payments.payments w' !! "pay2"%string
    = Some pending.
Proof.
  rewrite (processPayment_mpesa_without_phone demoId demoToken demoGateway
             paidWorld "bill2" "U" (Finite 250) noPhone eq_refl eq_refl).
  split; reflexivity.
Defined.

Lemma processPayment_settled_at_once_witness :
  payments.status
  <$> payments.payments
        (fst (processPayment demoId demoToken demoGateway "bill2" "U" NaN
                card noPhone paidWorld)) !! "pay2"%string
  = Some completed.
Proof.
  pose proof (processPayment_settled_at_once demoId demoToken demoGateway
                paidWorld "bill2" "U" NaN card noPhone eq_refl
                (or_intror (or_introl eq_refl))) as H.
  cbv zeta in H.
  destruct (processPayment demoId demoToken demoGateway "bill2" "U" NaN
              card noPhone paidWorld) as [w' o].
  destruct H as (_ & (p & Hp & Hst & _) & _).
  cbn [fst]. change (demoId (payments.payments paidWorld)) with "pay2"%string
    in Hp. by rewrite Hp, <- Hst.
Defined.

Lemma processPayment_mpesa_outcome_witness :
  payments.status
  <$> payments.payments
        (fst (processPayment demoId demoToken demoGateway "bill2" "U"
                (Finite 250) mpesa (withPhone "0712345678") paidWorld))
      !! "pay2"%string
  = Some pending
  ∧ payments.success
    <$> (match snd (processPayment demoId demoToken demoGateway "bill2" "U"
                      (Finite 250) mpesa (withPhone "0712345678") paidWorld)
         with
         | Resolved r => Some r
         | Rejected _ => None
         end) = Some true.
Proof.
  pose proof (processPayment_mpesa_outcome demoId demoToken demoGateway
                paidWorld "bill2" "U" (Finite 250)
                (withPhone "0712345678") "0712345678" eq_refl eq_refl) as H.
  cbv zeta in H.
  destruct (processPayment demoId demoToken demoGateway "bill2" "U"
              (Finite 250) mpesa (withPhone "0712345678") paidWorld)
    as [w' o].
  destruct H as (r & -> & Hiff & Hst & _). cbn [fst snd].
  assert (Hs : payments.success r = true).
  { apply Hiff. split; [by exists "token"%string|]. eexists. by split. }
  rewrite Hs in Hst. change (demoId (payments.payments paidWorld))
    with "pay2"%string in Hst. rewrite Hst. cbn. by rewrite Hs.
Defined.

Lemma confirm_cancel_overwrite_witness :
  payments.status
  <$> payments.payments
        (fst (cancelPayment "pay1" (Some "paid twice"%string) paidWorld))
      !! "pay1"%string
  = Some cancelled
  ∧ fst (confirmPayment "pay9" "admin" None paidWorld) = paidWorld.
Proof.
  destruct (confirm_cancel_overwrite paidWorld "pay1" "admin" None
              "paid twice" eq_refl) as [H _].
  destruct (confirm_cancel_overwrite paidWorld "pay9" "admin" None
              "paid twice" eq_refl) as (_ & _ & H9).
  specialize (H _ eq_refl). destruct H as [_ H].
  destruct (cancelPayment "pay1" (Some "paid twice"%string) paidWorld)
    as [w' o].
  destruct H as (_ & p' & Hp & Hst & _).
  destruct (H9 eq_refl) as [(r & Hr & _) _].
  split.
  - cbn [fst]. by rewrite Hp, <- Hst.
  - by rewrite Hr.
Defined.
End payments_scenarios.

Lemma firebase_helpers_never_reject_witness :
  fst (updateDocument "W" (Int 120) sweepDb) = sweepDb.
Proof.
  destruct (firebase_helpers_never_reject sweepDb) as (_ & H & _).
  specialize (H "W"%string (Int 120)).
  destruct (updateDocument "W" (Int 120) sweepDb) as [db' o] eqn:E.
  destruct H as (r & -> & H). apply H.
  injection E as _ <-. discriminate.
Defined.

